(** * pkg/metrics: instruments, owner-chain resolution and the metrics Service

    A shallow embedding of [pkg/metrics/metrics.go] of the build controller.

    - The package-level variables become one record, [Globals], threaded
      through every exported function of the instrument registry.
    - [crclient.Client] is an interface in the source; here it is the type
      class [Client] over the state of the cluster's object store.  Every
      call the package makes on it is appended to a trace.
    - [findFinalOwnerRef] recurses without a bound in the source, so its
      embedding carries fuel: one unit per fetch.
    - Logging ([ctxlog]) is left out: it touches neither the package state,
      nor the store, nor a result. *)

From Stdlib Require Import ZArith String Ascii List Floats Uint63 Lia.
From stdpp Require Import gmap strings list.

#[local] Open Scope string_scope.
#[local] Open Scope list_scope.
#[local] Set Warnings "-clear-no-such-hyp".
#[local] Set Warnings "-inexact-float".

(** ** Go values used by the package *)

(** How a Go call ends: it returns, or it panics. *)
Inductive outcome : Type :=
| Returned
| Panicked (reason : string).

(** [unicode/utf8.ValidString], over the bytes of a Go string. *)
Module utf8.

Definition between (lo hi b : N) : bool := ((lo <=? b) && (b <=? hi))%N.

(** A continuation byte, 0x80..0xBF. *)
Definition cont (b : N) : bool := between 0x80 0xBF b.

Fixpoint ValidBytes (bs : list N) : bool :=
  match bs with
  | [] => true
  | b0 :: r0 =>
    if (b0 <? 0x80)%N then ValidBytes r0
    else
      match r0 with
      | [] => false
      | b1 :: r1 =>
        if between 0xC2 0xDF b0 then cont b1 && ValidBytes r1
        else
          match r1 with
          | [] => false
          | b2 :: r2 =>
            if (b0 =? 0xE0)%N then
              between 0xA0 0xBF b1 && cont b2 && ValidBytes r2
            else if between 0xE1 0xEC b0 || between 0xEE 0xEF b0 then
              cont b1 && cont b2 && ValidBytes r2
            else if (b0 =? 0xED)%N then
              between 0x80 0x9F b1 && cont b2 && ValidBytes r2
            else
              match r2 with
              | [] => false
              | b3 :: r3 =>
                if (b0 =? 0xF0)%N then
                  between 0x90 0xBF b1 && cont b2 && cont b3 && ValidBytes r3
                else if between 0xF1 0xF3 b0 then
                  cont b1 && cont b2 && cont b3 && ValidBytes r3
                else if (b0 =? 0xF4)%N then
                  between 0x80 0x8F b1 && cont b2 && cont b3 && ValidBytes r3
                else false
              end
          end
      end
  end.

Definition ValidString (s : string) : bool :=
  ValidBytes (map N_of_ascii (list_ascii_of_string s)).

End utf8.

(** [time.Duration] is an int64 count of nanoseconds. *)
Module time.

Definition Duration := Z.

Definition Second : Duration := 1000000000%Z.

(** The float64 conversion of an int64. *)
Definition float64 (z : Z) : float :=
  if (z <? 0)%Z then PrimFloat.opp (PrimFloat.of_uint63 (Uint63.of_Z (- z)))
  else PrimFloat.of_uint63 (Uint63.of_Z z).

(** [func (d Duration) Seconds() float64]: Go's [/] and [%] truncate
    towards zero. *)
Definition Seconds (d : Duration) : float :=
  let sec := Z.quot d Second in
  let nsec := Z.rem d Second in
  PrimFloat.add (float64 sec) (PrimFloat.div (float64 nsec) 1e9%float).

End time.

(** ** The Prometheus client, as far as the package uses it

    A vector of counters or histograms is created with its variable label
    names; [With] selects the child for a label map and panics when the map
    does not fit the names.  A child is modelled by what was recorded on it:
    the vector keeps the sequence of recordings, each under its label map.
    Bucket boundaries are carried as the options they were created with;
    they are checked when a child is made. *)
Module prometheus.

Abbreviation Labels := (gmap string string).

Record CounterVec : Type := mkCounterVec {
  cv_Name : string;
  cv_Help : string;
  cv_variableLabels : list string;
  cv_incs : list Labels
}.

Record HistogramVec : Type := mkHistogramVec {
  hv_Name : string;
  hv_Help : string;
  hv_Buckets : list float;
  hv_variableLabels : list string;
  hv_observations : list (Labels * float)
}.

Definition NewCounterVec (name help : string) (labelNames : list string)
  : CounterVec :=
  mkCounterVec name help labelNames [].

Definition NewHistogramVec (name help : string) (buckets : list float)
           (labelNames : list string) : HistogramVec :=
  mkHistogramVec name help buckets labelNames [].

(** [validateValuesInLabels]: as many labels as the vector has names, and
    every value valid UTF-8. *)
Definition validateValuesInLabels (labels : Labels) (expected : nat) : bool :=
  (size labels =? expected)%nat
  && bool_decide (map_Forall (fun _ v => utf8.ValidString v = true) labels).

(** [GetMetricWith] succeeds when the values validate and every variable
    label has a value in the map. *)
Definition GetMetricWith_ok (variableLabels : list string) (labels : Labels)
  : bool :=
  validateValuesInLabels labels (length variableLabels)
  && forallb (fun l => bool_decide (is_Some (labels !! l))) variableLabels.

(** The vector after one more [Inc] on the child under [labels]. *)
Definition addInc (v : CounterVec) (labels : Labels) : CounterVec :=
  mkCounterVec (cv_Name v) (cv_Help v) (cv_variableLabels v)
               (cv_incs v ++ [labels]).

(** The vector after [Observe(x)] on the child under [labels]. *)
Definition addObservation (v : HistogramVec) (labels : Labels) (x : float)
  : HistogramVec :=
  mkHistogramVec (hv_Name v) (hv_Help v) (hv_Buckets v) (hv_variableLabels v)
                 (hv_observations v ++ [(labels, x)]).

(** [v.With(labels).Inc()]; [None] is the panic of [With]. *)
Definition WithInc (v : CounterVec) (labels : Labels) : option CounterVec :=
  if GetMetricWith_ok (cv_variableLabels v) labels
  then Some (addInc v labels) else None.

(** [DefBuckets], the boundaries of a histogram made without any. *)
Definition DefBuckets : list float :=
  [0.005; 0.01; 0.025; 0.05; 0.1; 0.25; 0.5; 1; 2.5; 5; 10]%float.

(** The upper bounds [newHistogram] starts from. *)
Definition upperBounds (buckets : list float) : list float :=
  match buckets with
  | [] => DefBuckets
  | _ => buckets
  end.

(** The check of [newHistogram] on the upper bounds: it panics when a bound
    is [>=] the next one.  The comparison is that of float64, false on a
    NaN. *)
Fixpoint increasing (bounds : list float) : bool :=
  match bounds with
  | [] => true
  | a :: rest =>
    match rest with
    | [] => true
    | b :: _ => negb (PrimFloat.leb b a) && increasing rest
    end
  end.

(** [newHistogram] makes the child of a histogram vector unless a variable
    label is named [le] or the upper bounds are not increasing.  The vector
    makes a child when [With] first asks for its label values, so a vector
    that cannot make a child has none, and every [With] on it panics. *)
Definition newHistogram_ok (variableLabels : list string) (buckets : list float)
  : bool :=
  forallb (fun n => negb (String.eqb n "le")) variableLabels
  && increasing (upperBounds buckets).

(** [v.With(labels).Observe(x)]; [None] is the panic of [With]: the labels
    are checked first, then the child is made. *)
Definition WithObserve (v : HistogramVec) (labels : Labels) (x : float)
  : option HistogramVec :=
  if GetMetricWith_ok (hv_variableLabels v) labels then
    if newHistogram_ok (hv_variableLabels v) (hv_Buckets v)
    then Some (addObservation v labels x) else None
  else None.

(** The value of the counter child under [labels]: its number of [Inc]s. *)
Definition counter_value (v : CounterVec) (labels : Labels) : nat :=
  length (filter (fun l => l = labels) (cv_incs v)).

(** The samples of the histogram child under [labels], oldest first. *)
Definition samples (v : HistogramVec) (labels : Labels) : list float :=
  snd <$> filter (fun p => fst p = labels) (hv_observations v).

(** [Registry.MustRegister(cs...)]: collectors are registered one after
    the other, and the first whose name is taken panics.  The registry is
    the set of the fully-qualified names registered with it. *)
Fixpoint MustRegister (cs : list string) (reg : gset string)
  : gset string * outcome :=
  match cs with
  | [] => (reg, Returned)
  | c :: cs' =>
    if bool_decide (c ∈ reg) then
      (reg, Panicked "duplicate metrics collector registration attempted")
    else MustRegister cs' ({[c]} ∪ reg)
  end.

End prometheus.

(** [config.Config].  Package [pkg/config] is not among the sources at hand;
    the records hold the fields [pkg/metrics] reads, with the types it reads
    them at. *)
Module config.

(** Modelled from the spec: the declaration of [config.Config.Prometheus],
    which is missing: the set of enabled label dimensions and the bucket
    boundaries of the histograms. *)
Record PrometheusConfig : Type := mkPrometheusConfig {
  BuildRunCompletionDurationBuckets : list float;
  BuildRunEstablishDurationBuckets : list float;
  BuildRunRampUpDurationBuckets : list float;
  EnabledLabels : list string
}.

(** Modelled from the spec: the declaration of
    [config.Config.ManagerOptions], which is missing: the controller's
    configured namespace. *)
Record ManagerOpts : Type := mkManagerOpts {
  LeaderElectionNamespace : string
}.

(** Modelled from the spec: the declaration of [config.Config], which is
    missing. *)
Record Config : Type := mkConfig {
  Prometheus : PrometheusConfig;
  ManagerOptions : ManagerOpts
}.

End config.

(** ** The instrument registry *)

(** Labels used in Prometheus metrics, and the other constants. *)
Definition BuildStrategyLabel : string := "buildstrategy".
Definition NamespaceLabel : string := "namespace".
Definition BuildLabel : string := "build".
Definition BuildRunLabel : string := "buildrun".
Definition BuildControllerName : string := "shipwright-build-controller".
Definition PodNameEnvVar : string := "POD_NAME".
Definition ControllerPortName : string := "http-metrics".
Definition CRPortName : string := "cr-metrics".

(** The package-level variables, together with the registry of the
    controller runtime ([metrics.Registry]) the instruments are registered
    with.  A nil instrument pointer is [None]. *)
Record Globals : Type := mkGlobals {
  buildCount : option prometheus.CounterVec;
  buildRunCount : option prometheus.CounterVec;
  buildRunEstablishDuration : option prometheus.HistogramVec;
  buildRunCompletionDuration : option prometheus.HistogramVec;
  buildRunRampUpDuration : option prometheus.HistogramVec;
  taskRunRampUpDuration : option prometheus.HistogramVec;
  taskRunPodRampUpDuration : option prometheus.HistogramVec;
  buildStrategyLabelEnabled : bool;
  namespaceLabelEnabled : bool;
  buildLabelEnabled : bool;
  buildRunLabelEnabled : bool;
  initialized : bool;
  Registry : gset string
}.

(** The variables as the [var] block declares them, in a process whose
    runtime registry holds [reg]. *)
Definition initial (reg : gset string) : Globals :=
  mkGlobals None None None None None None None false false false false false reg.

(** Assignments to single variables. *)
Definition set_buildCount v g :=
  mkGlobals v (buildRunCount g) (buildRunEstablishDuration g)
    (buildRunCompletionDuration g) (buildRunRampUpDuration g)
    (taskRunRampUpDuration g) (taskRunPodRampUpDuration g)
    (buildStrategyLabelEnabled g) (namespaceLabelEnabled g)
    (buildLabelEnabled g) (buildRunLabelEnabled g) (initialized g) (Registry g).
Definition set_buildRunCount v g :=
  mkGlobals (buildCount g) v (buildRunEstablishDuration g)
    (buildRunCompletionDuration g) (buildRunRampUpDuration g)
    (taskRunRampUpDuration g) (taskRunPodRampUpDuration g)
    (buildStrategyLabelEnabled g) (namespaceLabelEnabled g)
    (buildLabelEnabled g) (buildRunLabelEnabled g) (initialized g) (Registry g).
Definition set_buildRunEstablishDuration v g :=
  mkGlobals (buildCount g) (buildRunCount g) v
    (buildRunCompletionDuration g) (buildRunRampUpDuration g)
    (taskRunRampUpDuration g) (taskRunPodRampUpDuration g)
    (buildStrategyLabelEnabled g) (namespaceLabelEnabled g)
    (buildLabelEnabled g) (buildRunLabelEnabled g) (initialized g) (Registry g).
Definition set_buildRunCompletionDuration v g :=
  mkGlobals (buildCount g) (buildRunCount g) (buildRunEstablishDuration g)
    v (buildRunRampUpDuration g)
    (taskRunRampUpDuration g) (taskRunPodRampUpDuration g)
    (buildStrategyLabelEnabled g) (namespaceLabelEnabled g)
    (buildLabelEnabled g) (buildRunLabelEnabled g) (initialized g) (Registry g).
Definition set_buildRunRampUpDuration v g :=
  mkGlobals (buildCount g) (buildRunCount g) (buildRunEstablishDuration g)
    (buildRunCompletionDuration g) v
    (taskRunRampUpDuration g) (taskRunPodRampUpDuration g)
    (buildStrategyLabelEnabled g) (namespaceLabelEnabled g)
    (buildLabelEnabled g) (buildRunLabelEnabled g) (initialized g) (Registry g).
Definition set_taskRunRampUpDuration v g :=
  mkGlobals (buildCount g) (buildRunCount g) (buildRunEstablishDuration g)
    (buildRunCompletionDuration g) (buildRunRampUpDuration g)
    v (taskRunPodRampUpDuration g)
    (buildStrategyLabelEnabled g) (namespaceLabelEnabled g)
    (buildLabelEnabled g) (buildRunLabelEnabled g) (initialized g) (Registry g).
Definition set_taskRunPodRampUpDuration v g :=
  mkGlobals (buildCount g) (buildRunCount g) (buildRunEstablishDuration g)
    (buildRunCompletionDuration g) (buildRunRampUpDuration g)
    (taskRunRampUpDuration g) v
    (buildStrategyLabelEnabled g) (namespaceLabelEnabled g)
    (buildLabelEnabled g) (buildRunLabelEnabled g) (initialized g) (Registry g).
Definition set_buildStrategyLabelEnabled v g :=
  mkGlobals (buildCount g) (buildRunCount g) (buildRunEstablishDuration g)
    (buildRunCompletionDuration g) (buildRunRampUpDuration g)
    (taskRunRampUpDuration g) (taskRunPodRampUpDuration g)
    v (namespaceLabelEnabled g)
    (buildLabelEnabled g) (buildRunLabelEnabled g) (initialized g) (Registry g).
Definition set_namespaceLabelEnabled v g :=
  mkGlobals (buildCount g) (buildRunCount g) (buildRunEstablishDuration g)
    (buildRunCompletionDuration g) (buildRunRampUpDuration g)
    (taskRunRampUpDuration g) (taskRunPodRampUpDuration g)
    (buildStrategyLabelEnabled g) v
    (buildLabelEnabled g) (buildRunLabelEnabled g) (initialized g) (Registry g).
Definition set_buildLabelEnabled v g :=
  mkGlobals (buildCount g) (buildRunCount g) (buildRunEstablishDuration g)
    (buildRunCompletionDuration g) (buildRunRampUpDuration g)
    (taskRunRampUpDuration g) (taskRunPodRampUpDuration g)
    (buildStrategyLabelEnabled g) (namespaceLabelEnabled g)
    v (buildRunLabelEnabled g) (initialized g) (Registry g).
Definition set_buildRunLabelEnabled v g :=
  mkGlobals (buildCount g) (buildRunCount g) (buildRunEstablishDuration g)
    (buildRunCompletionDuration g) (buildRunRampUpDuration g)
    (taskRunRampUpDuration g) (taskRunPodRampUpDuration g)
    (buildStrategyLabelEnabled g) (namespaceLabelEnabled g)
    (buildLabelEnabled g) v (initialized g) (Registry g).
Definition set_initialized v g :=
  mkGlobals (buildCount g) (buildRunCount g) (buildRunEstablishDuration g)
    (buildRunCompletionDuration g) (buildRunRampUpDuration g)
    (taskRunRampUpDuration g) (taskRunPodRampUpDuration g)
    (buildStrategyLabelEnabled g) (namespaceLabelEnabled g)
    (buildLabelEnabled g) (buildRunLabelEnabled g) v (Registry g).
Definition set_Registry v g :=
  mkGlobals (buildCount g) (buildRunCount g) (buildRunEstablishDuration g)
    (buildRunCompletionDuration g) (buildRunRampUpDuration g)
    (taskRunRampUpDuration g) (taskRunPodRampUpDuration g)
    (buildStrategyLabelEnabled g) (namespaceLabelEnabled g)
    (buildLabelEnabled g) (buildRunLabelEnabled g) (initialized g) v.

(** [contains]: the range loop returns at the first equal candidate. *)
Fixpoint contains (slice : list string) (element : string) : bool :=
  match slice with
  | [] => false
  | candidate :: rest =>
    if String.eqb candidate element then true else contains rest element
  end.

(** The names the seven instruments are registered under, in the order of
    the [MustRegister] call. *)
Definition instrumentNames : list string :=
  [ "build_builds_registered_total";
    "build_buildruns_completed_total";
    "build_buildrun_establish_duration_seconds";
    "build_buildrun_completion_duration_seconds";
    "build_buildrun_rampup_duration_seconds";
    "build_buildrun_taskrun_rampup_duration_seconds";
    "build_buildrun_taskrun_pod_rampup_duration_seconds" ].

(** [InitPrometheus] *)
Definition InitPrometheus (cfg : config.Config) (g : Globals)
  : Globals * outcome :=
  if initialized g then (g, Returned)
  else
    let g := set_initialized true g in
    let p := config.Prometheus cfg in
    let buildLabels : list string := [] in
    let buildRunLabels : list string := [] in
    let '(buildLabels, buildRunLabels, g) :=
      if contains (config.EnabledLabels p) BuildStrategyLabel then
        (buildLabels ++ [BuildStrategyLabel],
         buildRunLabels ++ [BuildStrategyLabel],
         set_buildStrategyLabelEnabled true g)
      else (buildLabels, buildRunLabels, g) in
    let '(buildLabels, buildRunLabels, g) :=
      if contains (config.EnabledLabels p) NamespaceLabel then
        (buildLabels ++ [NamespaceLabel],
         buildRunLabels ++ [NamespaceLabel],
         set_namespaceLabelEnabled true g)
      else (buildLabels, buildRunLabels, g) in
    let '(buildLabels, buildRunLabels, g) :=
      if contains (config.EnabledLabels p) BuildLabel then
        (buildLabels ++ [BuildLabel],
         buildRunLabels ++ [BuildLabel],
         set_buildLabelEnabled true g)
      else (buildLabels, buildRunLabels, g) in
    let '(buildRunLabels, g) :=
      if contains (config.EnabledLabels p) BuildRunLabel then
        (buildRunLabels ++ [BuildRunLabel],
         set_buildRunLabelEnabled true g)
      else (buildRunLabels, g) in
    let g := set_buildCount
      (Some (prometheus.NewCounterVec
               "build_builds_registered_total"
               "Number of total registered Builds."
               buildLabels)) g in
    let g := set_buildRunCount
      (Some (prometheus.NewCounterVec
               "build_buildruns_completed_total"
               "Number of total completed BuildRuns."
               buildRunLabels)) g in
    let g := set_buildRunEstablishDuration
      (Some (prometheus.NewHistogramVec
               "build_buildrun_establish_duration_seconds"
               "BuildRun establish duration in seconds."
               (config.BuildRunEstablishDurationBuckets p)
               buildRunLabels)) g in
    let g := set_buildRunCompletionDuration
      (Some (prometheus.NewHistogramVec
               "build_buildrun_completion_duration_seconds"
               "BuildRun completion duration in seconds."
               (config.BuildRunCompletionDurationBuckets p)
               buildRunLabels)) g in
    let g := set_buildRunRampUpDuration
      (Some (prometheus.NewHistogramVec
               "build_buildrun_rampup_duration_seconds"
               "BuildRun ramp-up duration in seconds (time between buildrun creation and taskrun creation)."
               (config.BuildRunRampUpDurationBuckets p)
               buildRunLabels)) g in
    let g := set_taskRunRampUpDuration
      (Some (prometheus.NewHistogramVec
               "build_buildrun_taskrun_rampup_duration_seconds"
               "BuildRun taskrun ramp-up duration in seconds (time between taskrun creation and taskrun pod creation)."
               (config.BuildRunRampUpDurationBuckets p)
               buildRunLabels)) g in
    let g := set_taskRunPodRampUpDuration
      (Some (prometheus.NewHistogramVec
               "build_buildrun_taskrun_pod_rampup_duration_seconds"
               "BuildRun taskrun pod ramp-up duration in seconds (time between pod creation and last init container completion)."
               (config.BuildRunRampUpDurationBuckets p)
               buildRunLabels)) g in
    (* Register custom metrics with the global prometheus registry *)
    let '(reg, out) := prometheus.MustRegister instrumentNames (Registry g) in
    (set_Registry reg g, out).

(** [createBuildLabels] *)
Definition createBuildLabels (g : Globals) (buildStrategy namespace build : string)
  : prometheus.Labels :=
  let labels : prometheus.Labels := ∅ in
  let labels :=
    if buildStrategyLabelEnabled g
    then <[BuildStrategyLabel := buildStrategy]> labels else labels in
  let labels :=
    if namespaceLabelEnabled g
    then <[NamespaceLabel := namespace]> labels else labels in
  let labels :=
    if buildLabelEnabled g
    then <[BuildLabel := build]> labels else labels in
  labels.

(** [createBuildRunLabels] *)
Definition createBuildRunLabels (g : Globals)
           (buildStrategy namespace build buildRun : string)
  : prometheus.Labels :=
  let labels : prometheus.Labels := ∅ in
  let labels :=
    if buildStrategyLabelEnabled g
    then <[BuildStrategyLabel := buildStrategy]> labels else labels in
  let labels :=
    if namespaceLabelEnabled g
    then <[NamespaceLabel := namespace]> labels else labels in
  let labels :=
    if buildLabelEnabled g
    then <[BuildLabel := build]> labels else labels in
  let labels :=
    if buildRunLabelEnabled g
    then <[BuildRunLabel := buildRun]> labels else labels in
  labels.

(** What a panic of [With] reports. *)
Definition withPanic : outcome :=
  Panicked "inconsistent label cardinality, missing label name or invalid label value".

(** What a panic of [With] on a histogram reports: the trouble with the
    labels, or else the trouble [newHistogram] has with the vector. *)
Definition observePanic (v : prometheus.HistogramVec) (labels : prometheus.Labels)
  : outcome :=
  if prometheus.GetMetricWith_ok (prometheus.hv_variableLabels v) labels
  then Panicked "histogram child cannot be made: le as label name, or buckets not in increasing order"
  else withPanic.

(** [BuildCountInc] *)
Definition BuildCountInc (buildStrategy namespace build : string) (g : Globals)
  : Globals * outcome :=
  match buildCount g with
  | Some v =>
    match prometheus.WithInc v (createBuildLabels g buildStrategy namespace build) with
    | Some v' => (set_buildCount (Some v') g, Returned)
    | None => (g, withPanic)
    end
  | None => (g, Returned)
  end.

(** [BuildRunCountInc] *)
Definition BuildRunCountInc (buildStrategy namespace build buildRun : string)
           (g : Globals) : Globals * outcome :=
  match buildRunCount g with
  | Some v =>
    match prometheus.WithInc v
            (createBuildRunLabels g buildStrategy namespace build buildRun) with
    | Some v' => (set_buildRunCount (Some v') g, Returned)
    | None => (g, withPanic)
    end
  | None => (g, Returned)
  end.

(** [BuildRunEstablishObserve] *)
Definition BuildRunEstablishObserve (buildStrategy namespace build buildRun : string)
           (duration : time.Duration) (g : Globals) : Globals * outcome :=
  match buildRunEstablishDuration g with
  | Some v =>
    match prometheus.WithObserve v
            (createBuildRunLabels g buildStrategy namespace build buildRun)
            (time.Seconds duration) with
    | Some v' => (set_buildRunEstablishDuration (Some v') g, Returned)
    | None => (g, observePanic
                   v (createBuildRunLabels g buildStrategy namespace build buildRun))
    end
  | None => (g, Returned)
  end.

(** [BuildRunCompletionObserve] *)
Definition BuildRunCompletionObserve (buildStrategy namespace build buildRun : string)
           (duration : time.Duration) (g : Globals) : Globals * outcome :=
  match buildRunCompletionDuration g with
  | Some v =>
    match prometheus.WithObserve v
            (createBuildRunLabels g buildStrategy namespace build buildRun)
            (time.Seconds duration) with
    | Some v' => (set_buildRunCompletionDuration (Some v') g, Returned)
    | None => (g, observePanic
                   v (createBuildRunLabels g buildStrategy namespace build buildRun))
    end
  | None => (g, Returned)
  end.

(** [BuildRunRampUpDurationObserve] *)
Definition BuildRunRampUpDurationObserve
           (buildStrategy namespace build buildRun : string)
           (duration : time.Duration) (g : Globals) : Globals * outcome :=
  match buildRunRampUpDuration g with
  | Some v =>
    match prometheus.WithObserve v
            (createBuildRunLabels g buildStrategy namespace build buildRun)
            (time.Seconds duration) with
    | Some v' => (set_buildRunRampUpDuration (Some v') g, Returned)
    | None => (g, observePanic
                   v (createBuildRunLabels g buildStrategy namespace build buildRun))
    end
  | None => (g, Returned)
  end.

(** [TaskRunRampUpDurationObserve] *)
Definition TaskRunRampUpDurationObserve
           (buildStrategy namespace build buildRun : string)
           (duration : time.Duration) (g : Globals) : Globals * outcome :=
  match taskRunRampUpDuration g with
  | Some v =>
    match prometheus.WithObserve v
            (createBuildRunLabels g buildStrategy namespace build buildRun)
            (time.Seconds duration) with
    | Some v' => (set_taskRunRampUpDuration (Some v') g, Returned)
    | None => (g, observePanic
                   v (createBuildRunLabels g buildStrategy namespace build buildRun))
    end
  | None => (g, Returned)
  end.

(** [TaskRunPodRampUpDurationObserve] *)
Definition TaskRunPodRampUpDurationObserve
           (buildStrategy namespace build buildRun : string)
           (duration : time.Duration) (g : Globals) : Globals * outcome :=
  match taskRunPodRampUpDuration g with
  | Some v =>
    match prometheus.WithObserve v
            (createBuildRunLabels g buildStrategy namespace build buildRun)
            (time.Seconds duration) with
    | Some v' => (set_taskRunPodRampUpDuration (Some v') g, Returned)
    | None => (g, observePanic
                   v (createBuildRunLabels g buildStrategy namespace build buildRun))
    end
  | None => (g, Returned)
  end.

(** A call into the registry, and a run of calls: what the reconcilers and
    the start-up code do to the package state over the life of the process. *)
Inductive Call : Type :=
| CallInitPrometheus (cfg : config.Config)
| CallBuildCountInc (buildStrategy namespace build : string)
| CallBuildRunCountInc (buildStrategy namespace build buildRun : string)
| CallBuildRunEstablishObserve
    (buildStrategy namespace build buildRun : string) (d : time.Duration)
| CallBuildRunCompletionObserve
    (buildStrategy namespace build buildRun : string) (d : time.Duration)
| CallBuildRunRampUpDurationObserve
    (buildStrategy namespace build buildRun : string) (d : time.Duration)
| CallTaskRunRampUpDurationObserve
    (buildStrategy namespace build buildRun : string) (d : time.Duration)
| CallTaskRunPodRampUpDurationObserve
    (buildStrategy namespace build buildRun : string) (d : time.Duration).

Definition call (c : Call) (g : Globals) : Globals * outcome :=
  match c with
  | CallInitPrometheus cfg => InitPrometheus cfg g
  | CallBuildCountInc s n b => BuildCountInc s n b g
  | CallBuildRunCountInc s n b r => BuildRunCountInc s n b r g
  | CallBuildRunEstablishObserve s n b r d => BuildRunEstablishObserve s n b r d g
  | CallBuildRunCompletionObserve s n b r d => BuildRunCompletionObserve s n b r d g
  | CallBuildRunRampUpDurationObserve s n b r d =>
    BuildRunRampUpDurationObserve s n b r d g
  | CallTaskRunRampUpDurationObserve s n b r d =>
    TaskRunRampUpDurationObserve s n b r d g
  | CallTaskRunPodRampUpDurationObserve s n b r d =>
    TaskRunPodRampUpDurationObserve s n b r d g
  end.

(** The package state after the calls [cs], made in order from [g]. *)
Definition run (cs : list Call) (g : Globals) : Globals :=
  fold_left (fun g c => fst (call c g)) cs g.

(** The states a process can be in: those reached from the declared
    variables by calls into the package. *)
Definition reachable (g : Globals) : Prop :=
  exists reg cs, g = run cs (initial reg).

(** ** Vocabulary for the registry's properties *)

(** The label names the flags stand for. *)
Definition flagBuildLabels (g : Globals) : list string :=
  (if buildStrategyLabelEnabled g then [BuildStrategyLabel] else [])
  ++ (if namespaceLabelEnabled g then [NamespaceLabel] else [])
  ++ (if buildLabelEnabled g then [BuildLabel] else []).

Definition flagBuildRunLabels (g : Globals) : list string :=
  flagBuildLabels g ++ (if buildRunLabelEnabled g then [BuildRunLabel] else []).

(** An instrument that exists, was created with the label names [names], and
    has every recording under a label map whose keys are those names. *)
Definition counterWith (names : list string) (o : option prometheus.CounterVec) : Prop :=
  exists v,
    o = Some v /\ prometheus.cv_variableLabels v = names
    /\ Forall (fun labels : prometheus.Labels => dom labels = list_to_set names)
              (prometheus.cv_incs v).
Definition histogramWith (names : list string) (o : option prometheus.HistogramVec) : Prop :=
  exists v,
    o = Some v /\ prometheus.hv_variableLabels v = names
    /\ Forall (fun p : prometheus.Labels * float => dom (fst p) = list_to_set names)
              (prometheus.hv_observations v).

(** What holds of the package state whatever calls were made: before
    [InitPrometheus] the variables are as declared; after it every
    instrument exists and carries the label names of the set flags. *)
Record wellFormed (g : Globals) : Prop := mkWellFormed {
  wf_before : initialized g = false -> g = initial (Registry g);
  wf_buildCount :
    initialized g = true -> counterWith (flagBuildLabels g) (buildCount g);
  wf_buildRunCount :
    initialized g = true -> counterWith (flagBuildRunLabels g) (buildRunCount g);
  wf_establish :
    initialized g = true ->
    histogramWith (flagBuildRunLabels g) (buildRunEstablishDuration g);
  wf_completion :
    initialized g = true ->
    histogramWith (flagBuildRunLabels g) (buildRunCompletionDuration g);
  wf_rampUp :
    initialized g = true ->
    histogramWith (flagBuildRunLabels g) (buildRunRampUpDuration g);
  wf_taskRun :
    initialized g = true ->
    histogramWith (flagBuildRunLabels g) (taskRunRampUpDuration g);
  wf_taskRunPod :
    initialized g = true ->
    histogramWith (flagBuildRunLabels g) (taskRunPodRampUpDuration g)
}.

(** The slice a label adds to when the configuration enables it. *)
Definition onLabels (enabled : list string) (label : string) : list string :=
  if contains enabled label then [label] else [].

(** The four flags of a state. *)
Definition flags (g : Globals) : bool * bool * bool * bool :=
  (buildStrategyLabelEnabled g, namespaceLabelEnabled g,
   buildLabelEnabled g, buildRunLabelEnabled g).

(** An instrument that exists, whose label names, without repetition, are
    the set [keys], and whose recordings are all under label maps with
    exactly the keys [keys]. *)
Definition counterKeys (keys : gset string) (o : option prometheus.CounterVec) : Prop :=
  exists v,
    o = Some v /\ NoDup (prometheus.cv_variableLabels v)
    /\ list_to_set (prometheus.cv_variableLabels v) = keys
    /\ Forall (fun labels : prometheus.Labels => dom labels = keys)
              (prometheus.cv_incs v).

Definition histogramKeys (keys : gset string) (o : option prometheus.HistogramVec) : Prop :=
  exists v,
    o = Some v /\ NoDup (prometheus.hv_variableLabels v)
    /\ list_to_set (prometheus.hv_variableLabels v) = keys
    /\ Forall (fun p : prometheus.Labels * float => dom (fst p) = keys)
              (prometheus.hv_observations v).

(** The labels applicable to the build counter, and to the build-run
    instruments. *)
Definition buildLabelNames : gset string :=
  {[BuildStrategyLabel; NamespaceLabel; BuildLabel]}.
Definition buildRunLabelNames : gset string :=
  {[BuildStrategyLabel; NamespaceLabel; BuildLabel; BuildRunLabel]}.

(** The label values a caller hands over, under every label. *)
Definition suppliedBuildLabels (buildStrategy namespace build : string) : prometheus.Labels :=
  <[BuildStrategyLabel := buildStrategy]>
    (<[NamespaceLabel := namespace]> (<[BuildLabel := build]> ∅)).
Definition suppliedBuildRunLabels (buildStrategy namespace build buildRun : string) : prometheus.Labels :=
  <[BuildStrategyLabel := buildStrategy]>
    (<[NamespaceLabel := namespace]>
       (<[BuildLabel := build]> (<[BuildRunLabel := buildRun]> ∅))).

(** What an observation leaves in a histogram vector. *)
Definition records (instrument : Globals -> option prometheus.HistogramVec)
           (g g' : Globals) (labels : prometheus.Labels) (x : float) : Prop :=
  exists v v',
    instrument g = Some v /\ instrument g' = Some v'
    /\ prometheus.hv_observations v'
       = prometheus.hv_observations v ++ [(labels, x)]
    /\ prometheus.samples v' labels = prometheus.samples v labels ++ [x].

(** The bucket boundaries a histogram was made with are in increasing
    order, the default boundaries standing for none. *)
Definition increasingBuckets (o : option prometheus.HistogramVec) : bool :=
  match o with
  | Some v =>
    prometheus.increasing (prometheus.upperBounds (prometheus.hv_Buckets v))
  | None => false
  end.

(** ** Kubernetes API types, as far as the package reads and writes them *)

Module schema.

Record GroupVersion : Type := mkGroupVersion {
  gv_Group : string;
  gv_Version : string
}.

Record GroupVersionKind : Type := mkGroupVersionKind {
  Group : string;
  Version : string;
  Kind : string
}.

(** The part of [s] before its first [/], and the part after it; [None]
    when [s] has no [/]. *)
Fixpoint cut (s : string) : option (string * string) :=
  match s with
  | EmptyString => None
  | String c rest =>
    if Ascii.eqb c "/"%char then Some (EmptyString, rest)
    else match cut rest with
         | Some (before, after) => Some (String c before, after)
         | None => None
         end
  end.

(** [ParseGroupVersion]; [None] is its error, for more than one [/]. *)
Definition ParseGroupVersion (gv : string) : option GroupVersion :=
  if String.eqb gv EmptyString || String.eqb gv "/" then
    Some (mkGroupVersion EmptyString EmptyString)
  else
    match cut gv with
    | None => Some (mkGroupVersion EmptyString gv)
    | Some (before, after) =>
      match cut after with
      | None => Some (mkGroupVersion before after)
      | Some _ => None
      end
    end.

Definition FromAPIVersionAndKind (apiVersion kind : string) : GroupVersionKind :=
  match ParseGroupVersion apiVersion with
  | Some gv => mkGroupVersionKind (gv_Group gv) (gv_Version gv) kind
  | None => mkGroupVersionKind EmptyString EmptyString kind
  end.

(** [gvk.GroupVersion().String()] *)
Definition GroupVersionString (gvk : GroupVersionKind) : string :=
  if (0 <? String.length (Group gvk))%nat
  then Group gvk ++ "/" ++ Version gvk
  else Version gvk.

End schema.

Module types.

(** [types.NamespacedName], which [crclient.ObjectKey] is an alias of. *)
Record NamespacedName : Type := mkNamespacedName {
  Namespace : string;
  Name : string
}.

End types.

Module OwnerReference.

(** [metav1.OwnerReference]; the two [*bool] fields are options. *)
Record t : Type := mk {
  APIVersion : string;
  Kind : string;
  Name : string;
  UID : string;
  Controller : option bool;
  BlockOwnerDeletion : option bool
}.

End OwnerReference.

Module TypeMeta.

Record t : Type := mk {
  Kind : string;
  APIVersion : string
}.

(** [func (obj *TypeMeta) GroupVersionKind()] *)
Definition GroupVersionKind (obj : t) : schema.GroupVersionKind :=
  schema.FromAPIVersionAndKind (APIVersion obj) (Kind obj).

End TypeMeta.

Module ObjectMeta.

Record t : Type := mk {
  Name : string;
  Namespace : string;
  UID : string;
  ResourceVersion : string;
  Labels : gmap string string;
  OwnerReferences : list OwnerReference.t
}.

Definition empty : t := mk EmptyString EmptyString EmptyString EmptyString ∅ [].

Definition SetOwnerReferences (refs : list OwnerReference.t) (m : t) : t :=
  mk (Name m) (Namespace m) (UID m) (ResourceVersion m) (Labels m) refs.

Definition SetResourceVersion (rv : string) (m : t) : t :=
  mk (Name m) (Namespace m) (UID m) rv (Labels m) (OwnerReferences m).

End ObjectMeta.

Module metav1.

(** [GetControllerOf]: the first owner reference whose [Controller] is set
    and true. *)
Definition GetControllerOf (controllee : ObjectMeta.t) : option OwnerReference.t :=
  List.find
    (fun ref => match OwnerReference.Controller ref with
                | Some true => true
                | _ => false
                end)
    (ObjectMeta.OwnerReferences controllee).

(** [NewControllerRef] *)
Definition NewControllerRef (owner : ObjectMeta.t) (gvk : schema.GroupVersionKind)
  : OwnerReference.t :=
  let blockOwnerDeletion := true in
  let isController := true in
  OwnerReference.mk (schema.GroupVersionString gvk) (schema.Kind gvk)
                    (ObjectMeta.Name owner) (ObjectMeta.UID owner)
                    (Some isController) (Some blockOwnerDeletion).

End metav1.

Module Pod.

(** [corev1.Pod]: the package reads nothing of its spec or status. *)
Record t : Type := mk {
  TypeMeta : TypeMeta.t;
  ObjectMeta : ObjectMeta.t
}.

End Pod.

Module Unstructured.

(** [unstructured.Unstructured], read through its accessors. *)
Record t : Type := mk {
  TypeMeta : TypeMeta.t;
  ObjectMeta : ObjectMeta.t
}.

End Unstructured.

Module ServicePort.

Record t : Type := mk {
  Name : string;
  Port : Z
}.

End ServicePort.

Module ServiceSpec.

Record t : Type := mk {
  Ports : list ServicePort.t;
  Selector : gmap string string;
  ClusterIP : string;
  Type_ : string
}.

Definition SetClusterIP (ip : string) (s : t) : t :=
  mk (Ports s) (Selector s) ip (Type_ s).

End ServiceSpec.

Module Service.

Record t : Type := mk {
  TypeMeta : TypeMeta.t;
  ObjectMeta : ObjectMeta.t;
  Spec : ServiceSpec.t
}.

Definition Name (s : t) : string := ObjectMeta.Name (ObjectMeta s).
Definition Namespace (s : t) : string := ObjectMeta.Namespace (ObjectMeta s).
Definition ResourceVersion (s : t) : string :=
  ObjectMeta.ResourceVersion (ObjectMeta s).

Definition SetOwnerReferences (refs : list OwnerReference.t) (s : t) : t :=
  mk (TypeMeta s) (ObjectMeta.SetOwnerReferences refs (ObjectMeta s)) (Spec s).

Definition SetResourceVersion (rv : string) (s : t) : t :=
  mk (TypeMeta s) (ObjectMeta.SetResourceVersion rv (ObjectMeta s)) (Spec s).

Definition SetClusterIP (ip : string) (s : t) : t :=
  mk (TypeMeta s) (ObjectMeta s) (ServiceSpec.SetClusterIP ip (Spec s)).

End Service.

(** [v1.ServiceTypeClusterIP] *)
Definition ServiceTypeClusterIP : string := "ClusterIP".

(** ** Errors *)

(** [metav1.StatusReason], the reasons an object store answers with. *)
Inductive StatusReason : Type :=
| StatusReasonUnknown
| StatusReasonUnauthorized
| StatusReasonForbidden
| StatusReasonNotFound
| StatusReasonAlreadyExists
| StatusReasonConflict
| StatusReasonInvalid
| StatusReasonTimeout
| StatusReasonServerTimeout
| StatusReasonInternalError
| StatusReasonServiceUnavailable.

(** Go [error] values: an API status error, an error made by [fmt.Errorf]
    from a message alone, and one made with [%w] around another error. *)
Inductive error : Type :=
| StatusError (reason : StatusReason) (message : string)
| errorString (message : string)
| wrapError (prefix : string) (err : error).

(** [err.Error()] *)
Fixpoint Error (err : error) : string :=
  match err with
  | StatusError _ message => message
  | errorString message => message
  | wrapError prefix err' => prefix ++ Error err'
  end.

(** [errors.Unwrap]: the error an error made with [%w] is around. *)
Definition Unwrap (err : error) : option error :=
  match err with
  | wrapError _ err' => Some err'
  | _ => None
  end.

Module apierrors.

(** [ReasonForError]: a switch on the type of [err].  A status error has
    its reason; any other error has reason unknown, an error that wraps a
    status error included: the switch does not unwrap. *)
Definition ReasonForError (err : error) : StatusReason :=
  match err with
  | StatusError reason _ => reason
  | errorString _ => StatusReasonUnknown
  | wrapError _ _ => StatusReasonUnknown
  end.

Definition IsAlreadyExists (err : error) : bool :=
  match ReasonForError err with
  | StatusReasonAlreadyExists => true
  | _ => false
  end.

Definition IsNotFound (err : error) : bool :=
  match ReasonForError err with
  | StatusReasonNotFound => true
  | _ => false
  end.

End apierrors.

(** ** The object store and the calls made on it *)

Module rest.

(** [rest.Config]: where the API server is. *)
Record Config : Type := mkConfig {
  Host : string
}.

End rest.

(** [crclient.Client] over the state [Store] of the object store.  [Get]
    dispatches on the Go type of the object it fills in, so it is one method
    per type the package passes: [*corev1.Pod], [*v1.Service] and
    [*unstructured.Unstructured] (whose apiVersion and kind are set by the
    caller).  A read leaves the store as it is; [Create] and [Update] answer
    with the object as the server stored it, or leave the passed object
    untouched and answer with an error.  [NewClient] is [crclient.New]
    against the cluster. *)
Class Client (Store : Type) : Type := {
  NewClient : rest.Config -> Store -> option error;
  GetPod : Store -> types.NamespacedName -> error + Pod.t;
  GetService : Store -> types.NamespacedName -> error + Service.t;
  GetUnstructured :
    Store -> string -> string -> types.NamespacedName -> error + Unstructured.t;
  Create : Store -> Service.t -> Store * (error + Service.t);
  Update : Store -> Service.t -> Store * (error + Service.t)
}.

(** One call on the object store. *)
Inductive Op : Type :=
| OpGet (apiVersion kind : string) (key : types.NamespacedName)
| OpCreate (obj : Service.t)
| OpUpdate (obj : Service.t).

(** The namespace an operation addresses. *)
Definition OpNamespace (op : Op) : string :=
  match op with
  | OpGet _ _ key => types.Namespace key
  | OpCreate obj => Service.Namespace obj
  | OpUpdate obj => Service.Namespace obj
  end.

Definition isGet (op : Op) : bool :=
  match op with OpGet _ _ _ => true | _ => false end.

(** What the process runs in: its environment variables, the cluster's
    object store, and the calls made on the store so far, oldest first. *)
Record World (Store : Type) : Type := mkWorld {
  environ : gmap string string;
  cluster : Store;
  trace : list Op
}.
Arguments mkWorld {Store}.
Arguments environ {Store}.
Arguments cluster {Store}.
Arguments trace {Store}.

(** How a call of a function returning [(value, error)] ends; [OutOfFuel]
    stands for a recursion that has not come to an end within its fuel. *)
Inductive result (A : Type) : Type :=
| Ok (a : A)
| Err (e : error)
| OutOfFuel.
Arguments Ok {A}.
Arguments Err {A}.
Arguments OutOfFuel {A}.

Definition M (Store A : Type) : Type := World Store -> result A * World Store.

Definition ret {Store A} (a : A) : M Store A := fun w => (Ok a, w).

Definition raise {Store A} (e : error) : M Store A := fun w => (Err e, w).

Definition bind {Store A B} (m : M Store A) (k : A -> M Store B) : M Store B :=
  fun w =>
    match m w with
    | (Ok a, w') => k a w'
    | (Err e, w') => (Err e, w')
    | (OutOfFuel, w') => (OutOfFuel, w')
    end.

(** [v, err := f()]: the error as a value, for the caller to inspect. *)
Definition attempt {Store A} (m : M Store A) : M Store (error + A) :=
  fun w =>
    match m w with
    | (Ok a, w') => (Ok (inr a), w')
    | (Err e, w') => (Ok (inl e), w')
    | (OutOfFuel, w') => (OutOfFuel, w')
    end.

Notation "x <- c1 ;; c2" := (bind c1 (fun x => c2))
  (at level 100, c1 at next level, right associativity).

(** ** Owner resolution and the publication of the metrics Service *)

Section Publisher.

Context {Store : Type} `{!Client Store}.

(** [os.Getenv]: the value, or the empty string when the variable is not
    set. *)
Definition Getenv (key : string) : M Store string :=
  fun w => (Ok (default EmptyString (environ w !! key)), w).

Definition log (op : Op) (w : World Store) : World Store :=
  mkWorld (environ w) (cluster w) (trace w ++ [op]).

(** [crclient.New(cfg, crclient.Options{})] *)
Definition clientNew (cfg : rest.Config) : M Store unit :=
  fun w =>
    match NewClient cfg (cluster w) with
    | Some err => (Err err, w)
    | None => (Ok tt, w)
    end.

(** [client.Get(ctx, key, pod)] for a [*corev1.Pod] *)
Definition clientGetPod (key : types.NamespacedName) : M Store Pod.t :=
  fun w =>
    let w' := log (OpGet "v1" "Pod" key) w in
    match GetPod (cluster w) key with
    | inl err => (Err err, w')
    | inr pod => (Ok pod, w')
    end.

(** [client.Get(ctx, key, existingService)] for a [*v1.Service] *)
Definition clientGetService (key : types.NamespacedName) : M Store Service.t :=
  fun w =>
    let w' := log (OpGet "v1" "Service" key) w in
    match GetService (cluster w) key with
    | inl err => (Err err, w')
    | inr svc => (Ok svc, w')
    end.

(** [client.Get(ctx, key, obj)] for an [*unstructured.Unstructured] whose
    apiVersion and kind have been set. *)
Definition clientGetUnstructured (apiVersion kind : string)
           (key : types.NamespacedName) : M Store Unstructured.t :=
  fun w =>
    let w' := log (OpGet apiVersion kind key) w in
    match GetUnstructured (cluster w) apiVersion kind key with
    | inl err => (Err err, w')
    | inr obj => (Ok obj, w')
    end.

(** [client.Create(ctx, s)] *)
Definition clientCreate (s : Service.t) : M Store Service.t :=
  fun w =>
    let '(st, r) := Create (cluster w) s in
    let w' := mkWorld (environ w) st (trace w ++ [OpCreate s]) in
    match r with
    | inl err => (Err err, w')
    | inr s' => (Ok s', w')
    end.

(** [client.Update(ctx, s)] *)
Definition clientUpdate (s : Service.t) : M Store Service.t :=
  fun w =>
    let '(st, r) := Update (cluster w) s in
    let w' := mkWorld (environ w) st (trace w ++ [OpUpdate s]) in
    match r with
    | inl err => (Err err, w')
    | inr s' => (Ok s', w')
    end.

(** [findFinalOwnerRef]; a nil [ownerRef] is [None], and so is the nil
    reference it returns without an error.  Each fetch takes one unit of
    [fuel]. *)
Fixpoint findFinalOwnerRef (fuel : nat) (ns : string)
         (ownerRef : option OwnerReference.t) : M Store (option OwnerReference.t) :=
  match ownerRef with
  | None => ret None
  | Some ownerRef =>
    match fuel with
    | O => fun w => (OutOfFuel, w)
    | S fuel' =>
      obj <- clientGetUnstructured
               (OwnerReference.APIVersion ownerRef)
               (OwnerReference.Kind ownerRef)
               (types.mkNamespacedName ns (OwnerReference.Name ownerRef)) ;;
      let newOwnerRef := metav1.GetControllerOf (Unstructured.ObjectMeta obj) in
      match newOwnerRef with
      | Some _ => findFinalOwnerRef fuel' ns newOwnerRef
      | None => ret (Some ownerRef)
      end
    end
  end.

(** [getPodOwnerRef] *)
Definition getPodOwnerRef (fuel : nat) (ns : string) : M Store OwnerReference.t :=
  podName <- Getenv PodNameEnvVar ;;
  if String.eqb podName EmptyString then
    raise (errorString ("required env " ++ PodNameEnvVar
                        ++ " not set, please configure downward API"))
  else
    let key := types.mkNamespacedName ns podName in
    pod <- clientGetPod key ;;
    let pod := Pod.mk (TypeMeta.mk "Pod" "v1") (Pod.ObjectMeta pod) in
    let podOwnerRefs :=
      metav1.NewControllerRef (Pod.ObjectMeta pod)
                              (TypeMeta.GroupVersionKind (Pod.TypeMeta pod)) in
    let ownerRef := metav1.GetControllerOf (Pod.ObjectMeta pod) in
    finalOwnerRef <- findFinalOwnerRef fuel ns ownerRef ;;
    match finalOwnerRef with
    | Some ref => ret ref
    | None => ret podOwnerRefs
    end.

(** [createOrUpdateService] *)
Definition createOrUpdateService (buildCfg : config.Config) (s : Service.t)
  : M Store Service.t :=
  created <- attempt (clientCreate s) ;;
  match created with
  | inl err =>
    if negb (apierrors.IsAlreadyExists err) then raise err
    else
      existingService <-
        clientGetService (types.mkNamespacedName (Service.Namespace s)
                                                 (Service.Name s)) ;;
      let s := Service.SetResourceVersion
                 (Service.ResourceVersion existingService) s in
      let s :=
        if String.eqb (ServiceSpec.Type_ (Service.Spec existingService))
                      ServiceTypeClusterIP
        then Service.SetClusterIP
               (ServiceSpec.ClusterIP (Service.Spec existingService)) s
        else s in
      clientUpdate s
  | inr s' => ret s'
  end.

(** [CreateMetricsService] *)
Definition CreateMetricsService (fuel : nat) (cfg : rest.Config)
           (buildCfg : config.Config) (servicePorts : list ServicePort.t)
  : M Store Service.t :=
  if (length servicePorts <? 1)%nat then
    raise (errorString "failed to create metrics Serice; service ports were empty")
  else
    client <- attempt (clientNew cfg) ;;
    match client with
    | inl err => raise (wrapError "failed to create new client: " err)
    | inr _ =>
      let label : gmap string string := {[ "name" := BuildControllerName ]} in
      let ns := config.LeaderElectionNamespace (config.ManagerOptions buildCfg) in
      let service :=
        Service.mk
          (TypeMeta.mk EmptyString EmptyString)
          (ObjectMeta.mk (BuildControllerName ++ "-metrics") ns
                         EmptyString EmptyString label [])
          (ServiceSpec.mk servicePorts label EmptyString EmptyString) in
      ownRef <- getPodOwnerRef fuel ns ;;
      let service := Service.SetOwnerReferences [ownRef] service in
      published <- attempt (createOrUpdateService buildCfg service) ;;
      match published with
      | inl err =>
        raise (wrapError "failed to create or get service for metrics: " err)
      | inr service => ret service
      end
    end.

(** *** Vocabulary for the properties of the calls on the store *)

(** The fetch of the object a reference names, in namespace [ns]. *)
Definition fetchOf (ns : string) (ref : OwnerReference.t) : Op :=
  OpGet (OwnerReference.APIVersion ref) (OwnerReference.Kind ref)
        (types.mkNamespacedName ns (OwnerReference.Name ref)).

Definition fetched (st : Store) (ns : string) (ref : OwnerReference.t)
  : error + Unstructured.t :=
  GetUnstructured st (OwnerReference.APIVersion ref) (OwnerReference.Kind ref)
                  (types.mkNamespacedName ns (OwnerReference.Name ref)).

(** The fetch of the Pod. *)
Definition podFetch (ns podName : string) : Op :=
  OpGet "v1" "Pod" (types.mkNamespacedName ns podName).

(** The reference [getPodOwnerRef] makes to the Pod itself. *)
Definition podReference (pod : Pod.t) : OwnerReference.t :=
  metav1.NewControllerRef
    (Pod.ObjectMeta pod)
    (TypeMeta.GroupVersionKind (TypeMeta.mk "Pod" "v1")).

(** The key [createOrUpdateService] fetches the existing Service by. *)
Definition serviceKey (s : Service.t) : types.NamespacedName :=
  types.mkNamespacedName (Service.Namespace s) (Service.Name s).

(** [s'] is the descriptor [s] but for its resource version and its
    cluster IP. *)
Definition sameDescriptor (s s' : Service.t) : Prop :=
  Service.TypeMeta s' = Service.TypeMeta s
  /\ Service.Name s' = Service.Name s
  /\ Service.Namespace s' = Service.Namespace s
  /\ ObjectMeta.UID (Service.ObjectMeta s') = ObjectMeta.UID (Service.ObjectMeta s)
  /\ ObjectMeta.Labels (Service.ObjectMeta s')
     = ObjectMeta.Labels (Service.ObjectMeta s)
  /\ ObjectMeta.OwnerReferences (Service.ObjectMeta s')
     = ObjectMeta.OwnerReferences (Service.ObjectMeta s)
  /\ ServiceSpec.Ports (Service.Spec s') = ServiceSpec.Ports (Service.Spec s)
  /\ ServiceSpec.Selector (Service.Spec s')
     = ServiceSpec.Selector (Service.Spec s)
  /\ ServiceSpec.Type_ (Service.Spec s') = ServiceSpec.Type_ (Service.Spec s).

(** The world after further calls [ops] on the store. *)
Definition after (ops : list Op) (w : World Store) : World Store :=
  mkWorld (environ w) (cluster w) (trace w ++ ops).

(** *** The controller-owner graph the store holds

    The reference the object named by [ref] carries to its controller,
    read in namespace [ns]: the edge [findFinalOwnerRef] follows. *)
Definition controllerOf (st : Store) (ns : string) (ref : OwnerReference.t)
  : option OwnerReference.t :=
  match GetUnstructured st (OwnerReference.APIVersion ref)
                        (OwnerReference.Kind ref)
                        (types.mkNamespacedName ns (OwnerReference.Name ref)) with
  | inr obj => metav1.GetControllerOf (Unstructured.ObjectMeta obj)
  | inl _ => None
  end.

(** The reference reached from [ref] after [n] edges, if the chain is that
    long. *)
Fixpoint hops (st : Store) (ns : string) (ref : OwnerReference.t) (n : nat)
  : option OwnerReference.t :=
  match n with
  | O => Some ref
  | S n' =>
    match controllerOf st ns ref with
    | Some ref' => hops st ns ref' n'
    | None => None
    end
  end.

(** The object a reference names, within a namespace. *)
Definition refKey (ref : OwnerReference.t) : string * string * string :=
  (OwnerReference.APIVersion ref, OwnerReference.Kind ref,
   OwnerReference.Name ref).

(** The graph reachable from [ref] is finite: its objects are among
    finitely many. *)
Definition finiteFrom (st : Store) (ns : string) (ref : OwnerReference.t) : Prop :=
  exists nodes : list (string * string * string),
    forall i r, hops st ns ref i = Some r -> refKey r ∈ nodes.

(** It is acyclic: the chain never comes back to an object. *)
Definition acyclicFrom (st : Store) (ns : string) (ref : OwnerReference.t) : Prop :=
  forall i j ri rj,
    (i < j)%nat -> hops st ns ref i = Some ri -> hops st ns ref j = Some rj ->
    refKey ri <> refKey rj.

(** It has a cycle: the chain comes back to an object. *)
Definition cyclicFrom (st : Store) (ns : string) (ref : OwnerReference.t) : Prop :=
  exists i j ri rj,
    (i < j)%nat /\ hops st ns ref i = Some ri /\ hops st ns ref j = Some rj
    /\ refKey ri = refKey rj.

(** The keys of the first [n] objects of the chain from [ref]. *)
Fixpoint chain (st : Store) (ns : string) (ref : OwnerReference.t) (n : nat)
  : list (string * string * string) :=
  match n with
  | O => []
  | S n' =>
    refKey ref ::
    match controllerOf st ns ref with
    | Some ref' => chain st ns ref' n'
    | None => []
    end
  end.

End Publisher.

(** ** An object store held in memory

    Objects are kept by apiVersion, kind, namespace and name; an object of a
    cluster-scoped kind has no namespace and is kept under the empty one.
    The client asks with the namespace of the key only for a namespaced
    kind: for a cluster-scoped kind it drops the namespace from the request.
    A read of a key the store does not hold answers not-found; [Create] of a
    key it holds answers already-exists; [Update] checks the resource
    version and answers with a conflict when it is stale.  Each write marks
    the resource version. *)
Module memstore.

Record object : Type := mkObject {
  meta : ObjectMeta.t;
  spec : ServiceSpec.t
}.

Abbreviation key := (string * string * string * string)%type.
Abbreviation store := (gmap (string * string * string * string) object).

(** The kinds the API server serves without a namespace, as far as owners
    of Pods go. *)
Definition clusterScoped (apiVersion kind : string) : bool :=
  String.eqb apiVersion "v1"
  && (String.eqb kind "Node" || String.eqb kind "Namespace"
      || String.eqb kind "PersistentVolume").

Definition keyOf (apiVersion kind : string) (k : types.NamespacedName) : key :=
  (apiVersion, kind,
   if clusterScoped apiVersion kind then EmptyString else types.Namespace k,
   types.Name k).

(** The kind a reference names is namespaced. *)
Definition namespaced (ref : OwnerReference.t) : bool :=
  negb (clusterScoped (OwnerReference.APIVersion ref) (OwnerReference.Kind ref)).

(** The store holds the object a reference names under [namespace]; the
    empty namespace is that of the objects without one. *)
Definition livesIn (st : store) (ref : OwnerReference.t) (namespace : string)
  : Prop :=
  is_Some (st !! (OwnerReference.APIVersion ref, OwnerReference.Kind ref,
                  namespace, OwnerReference.Name ref)).

Definition serviceKey (s : Service.t) : key :=
  ("v1", "Service", Service.Namespace s, Service.Name s).

Definition noSpec : ServiceSpec.t :=
  ServiceSpec.mk [] ∅ EmptyString EmptyString.

Definition notFound (name : string) : error :=
  StatusError StatusReasonNotFound (name ++ " not found").
Definition alreadyExists (name : string) : error :=
  StatusError StatusReasonAlreadyExists (name ++ " already exists").
Definition conflict (name : string) : error :=
  StatusError StatusReasonConflict
              (name ++ ": the object has been modified").

Definition read (st : store) (apiVersion kind : string)
           (k : types.NamespacedName) : error + object :=
  match st !! keyOf apiVersion kind k with
  | Some o => inr o
  | None => inl (notFound (types.Name k))
  end.

Definition create (st : store) (s : Service.t) : store * (error + Service.t) :=
  match st !! serviceKey s with
  | Some _ => (st, inl (alreadyExists (Service.Name s)))
  | None =>
    let s' := Service.SetResourceVersion "1" s in
    (<[serviceKey s := mkObject (Service.ObjectMeta s') (Service.Spec s')]> st,
     inr s')
  end.

Definition update (st : store) (s : Service.t) : store * (error + Service.t) :=
  match st !! serviceKey s with
  | None => (st, inl (notFound (Service.Name s)))
  | Some o =>
    if String.eqb (Service.ResourceVersion s)
                  (ObjectMeta.ResourceVersion (meta o)) then
      let s' := Service.SetResourceVersion (Service.ResourceVersion s ++ "1") s in
      (<[serviceKey s := mkObject (Service.ObjectMeta s') (Service.Spec s')]> st,
       inr s')
    else (st, inl (conflict (Service.Name s)))
  end.

#[global] Instance client : Client store := {|
  NewClient cfg st :=
    if String.eqb (rest.Host cfg) EmptyString
    then Some (errorString "no host") else None;
  GetPod st k :=
    match read st "v1" "Pod" k with
    | inr o => inr (Pod.mk (TypeMeta.mk EmptyString EmptyString) (meta o))
    | inl e => inl e
    end;
  GetService st k :=
    match read st "v1" "Service" k with
    | inr o =>
      inr (Service.mk (TypeMeta.mk EmptyString EmptyString) (meta o) (spec o))
    | inl e => inl e
    end;
  GetUnstructured st apiVersion kind k :=
    match read st apiVersion kind k with
    | inr o => inr (Unstructured.mk (TypeMeta.mk kind apiVersion) (meta o))
    | inl e => inl e
    end;
  Create := create;
  Update := update
|}.

End memstore.

(** ** A cluster to run the package in

    The controller's Pod is owned by a ReplicaSet that a Deployment owns; a
    second Pod stands alone; two objects own each other; one owner lives in
    another namespace; and a metrics Service is already published. *)
Module sample.

Definition ns : string := "shipwright-build".

Definition controllerRef (apiVersion kind name uid : string) : OwnerReference.t :=
  OwnerReference.mk apiVersion kind name uid (Some true) (Some true).

Definition toReplicaSet : OwnerReference.t :=
  controllerRef "apps/v1" "ReplicaSet" "shipwright-build-controller-5d9f" "uid-rs".
Definition toDeployment : OwnerReference.t :=
  controllerRef "apps/v1" "Deployment" "shipwright-build-controller" "uid-deploy".
Definition toLeft : OwnerReference.t :=
  controllerRef "example.io/v1" "Ring" "left" "uid-left".
Definition toRight : OwnerReference.t :=
  controllerRef "example.io/v1" "Ring" "right" "uid-right".
Definition toElsewhere : OwnerReference.t :=
  controllerRef "apps/v1" "ReplicaSet" "elsewhere" "uid-elsewhere".

Definition object (name namespace uid : string) (owners : list OwnerReference.t)
  : memstore.object :=
  memstore.mkObject (ObjectMeta.mk name namespace uid "7" ∅ owners) memstore.noSpec.

Definition existingService : memstore.object :=
  memstore.mkObject
    (ObjectMeta.mk "shipwright-build-controller-metrics" ns "uid-svc" "41" ∅ [])
    (ServiceSpec.mk [ServicePort.mk "http-metrics" 8383] ∅ "10.0.0.7" "ClusterIP").

Definition objects : memstore.store :=
  <[("v1", "Pod", ns, "controller-pod") :=
      object "controller-pod" ns "uid-pod" [toReplicaSet]]>
  (<[("apps/v1", "ReplicaSet", ns, "shipwright-build-controller-5d9f") :=
      object "shipwright-build-controller-5d9f" ns "uid-rs" [toDeployment]]>
  (<[("apps/v1", "Deployment", ns, "shipwright-build-controller") :=
      object "shipwright-build-controller" ns "uid-deploy" []]>
  (<[("v1", "Pod", ns, "lone-pod") :=
      object "lone-pod" ns "uid-lone" []]>
  (<[("example.io/v1", "Ring", ns, "left") :=
      object "left" ns "uid-left" [toRight]]>
  (<[("example.io/v1", "Ring", ns, "right") :=
      object "right" ns "uid-right" [toLeft]]>
  (<[("v1", "Pod", ns, "stray-pod") :=
      object "stray-pod" ns "uid-stray" [toElsewhere]]>
  (<[("apps/v1", "ReplicaSet", "other-namespace", "elsewhere") :=
      object "elsewhere" "other-namespace" "uid-elsewhere" []]>
  (<[("v1", "Service", ns, "shipwright-build-controller-metrics") :=
      existingService]> ∅)))))))).

(** The objects as the store answers with them. *)
Definition pod : Pod.t :=
  Pod.mk (TypeMeta.mk EmptyString EmptyString)
         (ObjectMeta.mk "controller-pod" ns "uid-pod" "7" ∅ [toReplicaSet]).
Definition lonePod : Pod.t :=
  Pod.mk (TypeMeta.mk EmptyString EmptyString)
         (ObjectMeta.mk "lone-pod" ns "uid-lone" "7" ∅ []).
Definition replicaSet : Unstructured.t :=
  Unstructured.mk
    (TypeMeta.mk "ReplicaSet" "apps/v1")
    (ObjectMeta.mk "shipwright-build-controller-5d9f" ns "uid-rs" "7" ∅
                   [toDeployment]).
Definition deployment : Unstructured.t :=
  Unstructured.mk
    (TypeMeta.mk "Deployment" "apps/v1")
    (ObjectMeta.mk "shipwright-build-controller" ns "uid-deploy" "7" ∅ []).

(** The process of the Pod [podName], before it has called the store. *)
Definition world (podName : string) : World memstore.store :=
  mkWorld {[ PodNameEnvVar := podName ]} objects [].

(** A process whose POD_NAME is not set. *)
Definition worldWithoutPodName : World memstore.store :=
  mkWorld ∅ objects [].

Definition buildCfg : config.Config :=
  config.mkConfig
    (config.mkPrometheusConfig [] [] [] [BuildStrategyLabel; NamespaceLabel])
    (config.mkManagerOpts ns).

Definition restCfg : rest.Config := rest.mkConfig "https://10.0.0.1:443".

Definition ports : list ServicePort.t := [ServicePort.mk ControllerPortName 8383].

(** The descriptor [CreateMetricsService] builds for [ports], owned by the
    Deployment. *)
Definition service : Service.t :=
  Service.mk (TypeMeta.mk EmptyString EmptyString)
             (ObjectMeta.mk "shipwright-build-controller-metrics" ns
                            EmptyString EmptyString
                            {[ "name" := BuildControllerName ]} [toDeployment])
             (ServiceSpec.mk ports {[ "name" := BuildControllerName ]}
                             EmptyString EmptyString).

(** The package state after start-up with [buildCfg]. *)
Definition started : Globals := fst (InitPrometheus buildCfg (initial ∅)).

(** The labels of a recording when the strategy and the namespace label are
    enabled. *)
Definition labels : prometheus.Labels :=
<[BuildStrategyLabel := "buildah"]> (<[NamespaceLabel := "team-a"]> ∅).

Definition samplesOf (o : option prometheus.HistogramVec) : option (list float) :=
(fun v => prometheus.samples v labels) <$> o.

End sample.

(** ** Vocabulary for further properties *)

(** The names of the seven instruments, as a set. *)
Definition instrumentNameSet : gset string := list_to_set instrumentNames.

(** What an instrument was made with: its name, help text, buckets and
    label names, without what has been recorded on it. *)
Definition counterMake (o : option prometheus.CounterVec)
  : option (string * string * list string) :=
  (fun v => (prometheus.cv_Name v, prometheus.cv_Help v,
             prometheus.cv_variableLabels v)) <$> o.

Definition histogramMake (o : option prometheus.HistogramVec)
  : option (string * string * list float * list string) :=
  (fun v => (prometheus.hv_Name v, prometheus.hv_Help v,
             prometheus.hv_Buckets v, prometheus.hv_variableLabels v)) <$> o.

(** The bucket boundaries an instrument was made with. *)
Definition bucketsOf (o : option prometheus.HistogramVec) : option (list float) :=
  prometheus.hv_Buckets <$> o.

(** The value of a counter under a label map; nothing for a nil counter. *)
Definition valueOf (o : option prometheus.CounterVec) (labels : prometheus.Labels)
  : option nat :=
  (fun v => prometheus.counter_value v labels) <$> o.

(** The samples of a histogram under a label map, oldest first; nothing for
    a nil histogram. *)
Definition samplesAt (o : option prometheus.HistogramVec)
           (labels : prometheus.Labels) : option (list float) :=
  (fun v => prometheus.samples v labels) <$> o.

(** No value of the counter [o] is higher than in [o']. *)
Definition countsNoLess (o o' : option prometheus.CounterVec) : Prop :=
  forall labels k,
    valueOf o labels = Some k ->
    exists k', valueOf o' labels = Some k' /\ (k <= k')%nat.

(** The samples of the histogram [o] are still in [o'], before any other
    sample and in their order. *)
Definition samplesKept (o o' : option prometheus.HistogramVec) : Prop :=
  forall labels xs,
    samplesAt o labels = Some xs ->
    exists xs', samplesAt o' labels = Some xs' /\ xs `prefix_of` xs'.

Section ChainVocabulary.

Context {Store : Type} `{!Client Store}.

(** The fetches of the first [n] objects of the chain from [ref], in the
    order of the chain. *)
Fixpoint fetchesAlong (st : Store) (ns : string) (ref : OwnerReference.t) (n : nat)
  : list Op :=
  match n with
  | O => []
  | S n' =>
    fetchOf ns ref ::
    match controllerOf st ns ref with
    | Some ref' => fetchesAlong st ns ref' n'
    | None => []
    end
  end.

(** The object [ref] names is in the store under [ns] and has no controller
    owner: the chain ends at it. *)
Definition isTop (st : Store) (ns : string) (ref : OwnerReference.t) : Prop :=
  exists obj,
    fetched st ns ref = inr obj
    /\ metav1.GetControllerOf (Unstructured.ObjectMeta obj) = None.

(** The descriptor [CreateMetricsService] builds. *)
Definition metricsService (buildCfg : config.Config)
           (servicePorts : list ServicePort.t) (ownRef : OwnerReference.t)
  : Service.t :=
  Service.mk
    (TypeMeta.mk EmptyString EmptyString)
    (ObjectMeta.mk "shipwright-build-controller-metrics"
                   (config.LeaderElectionNamespace (config.ManagerOptions buildCfg))
                   EmptyString EmptyString
                   {[ "name" := "shipwright-build-controller" ]} [ownRef])
    (ServiceSpec.mk servicePorts {[ "name" := "shipwright-build-controller" ]}
                    EmptyString EmptyString).

(** A world that differs from [w] in its trace alone, which has grown by
    fetches. *)
Definition onlyFetched (w w' : World Store) : Prop :=
  exists ops, w' = after ops w /\ Forall (fun op => isGet op = true) ops.

End ChainVocabulary.

(** What the state [g] holds of recordings is still there in [g']. *)
Definition recordingsKept (g g' : Globals) : Prop :=
  countsNoLess (buildCount g) (buildCount g')
  /\ countsNoLess (buildRunCount g) (buildRunCount g')
  /\ samplesKept (buildRunEstablishDuration g) (buildRunEstablishDuration g')
  /\ samplesKept (buildRunCompletionDuration g) (buildRunCompletionDuration g')
  /\ samplesKept (buildRunRampUpDuration g) (buildRunRampUpDuration g')
  /\ samplesKept (taskRunRampUpDuration g) (taskRunRampUpDuration g')
  /\ samplesKept (taskRunPodRampUpDuration g) (taskRunPodRampUpDuration g').

(** ** Further clusters to run the package in *)

(** The sample cluster before the metrics Service was published. *)
Definition unpublished : memstore.store :=
  delete ("v1", "Service", sample.ns, "shipwright-build-controller-metrics")
         sample.objects.

(** The process of the Pod [podName] in that cluster. *)
Definition unpublishedWorld (podName : string) : World memstore.store :=
  mkWorld {[ PodNameEnvVar := podName ]} unpublished [].

(** A reference to a Node, and the sample cluster with that Node and the
    static Pod its kubelet runs: the controller owner of the Pod is the Node,
    which has no namespace. *)
Definition toNode : OwnerReference.t :=
  sample.controllerRef "v1" "Node" "node-1" "uid-node".

Definition withNode : memstore.store :=
  <[("v1", "Node", EmptyString, "node-1") :=
      sample.object "node-1" EmptyString "uid-node" []]>
  (<[("v1", "Pod", sample.ns, "static-pod") :=
      sample.object "static-pod" sample.ns "uid-static" [toNode]]>
   sample.objects).

(** The process of the Pod [podName] in that cluster. *)
Definition nodeWorld (podName : string) : World memstore.store :=
  mkWorld {[ PodNameEnvVar := podName ]} withNode [].

(** A configuration whose establish buckets are out of order, and the
    package state after start-up with it. *)
Definition unsortedCfg : config.Config :=
  config.mkConfig
    (config.mkPrometheusConfig [] [2; 1]%float []
                               [BuildStrategyLabel; NamespaceLabel])
    (config.mkManagerOpts sample.ns).

Definition startedUnsorted : Globals := fst (InitPrometheus unsortedCfg (initial ∅)).

(** A configuration no client can be made from. *)
Definition restCfgWithoutHost : rest.Config := rest.mkConfig EmptyString.

(** The object store behind an API server that lets the process read and
    forbids it to create or update a Service. *)
Module readonly.

Definition forbidden (name : string) : error :=
  StatusError StatusReasonForbidden (name ++ " is forbidden").

Definition client : Client memstore.store := {|
  NewClient := @NewClient _ memstore.client;
  GetPod := @GetPod _ memstore.client;
  GetService := @GetService _ memstore.client;
  GetUnstructured := @GetUnstructured _ memstore.client;
  Create st s := (st, inl (forbidden (Service.Name s)));
  Update st s := (st, inl (forbidden (Service.Name s)))
|}.

End readonly.

(** * Properties of the instrument registry *)

Lemma contains_elem_of (slice : list string) (element : string) :
  contains slice element = true <-> element ∈ slice.
Proof.
  induction slice as [|candidate rest IH]; simpl.
  - split; [discriminate | intros H; inversion H].
  - destruct (String.eqb_spec candidate element) as [->|Hne].
    + split; [intros _; left | reflexivity].
    + rewrite IH. split; [intros H; by right|].
      intros H. inversion H; subst; [congruence | done].
Qed.

Lemma wellFormed_initial reg : wellFormed (initial reg).
Proof. split; simpl; try discriminate. reflexivity. Qed.

(** [InitPrometheus] when it has not run before, with the four [if] blocks
    worked out. *)
Lemma InitPrometheus_first cfg g :
  initialized g = false ->
  InitPrometheus cfg g =
  let p := config.Prometheus cfg in
  let enabled := config.EnabledLabels p in
  let buildLabels :=
    onLabels enabled BuildStrategyLabel ++ onLabels enabled NamespaceLabel
    ++ onLabels enabled BuildLabel in
  let buildRunLabels := buildLabels ++ onLabels enabled BuildRunLabel in
  let '(reg, out) := prometheus.MustRegister instrumentNames (Registry g) in
  (mkGlobals
     (Some (prometheus.NewCounterVec
              "build_builds_registered_total"
              "Number of total registered Builds." buildLabels))
     (Some (prometheus.NewCounterVec
              "build_buildruns_completed_total"
              "Number of total completed BuildRuns." buildRunLabels))
     (Some (prometheus.NewHistogramVec
              "build_buildrun_establish_duration_seconds"
              "BuildRun establish duration in seconds."
              (config.BuildRunEstablishDurationBuckets p) buildRunLabels))
     (Some (prometheus.NewHistogramVec
              "build_buildrun_completion_duration_seconds"
              "BuildRun completion duration in seconds."
              (config.BuildRunCompletionDurationBuckets p) buildRunLabels))
     (Some (prometheus.NewHistogramVec
              "build_buildrun_rampup_duration_seconds"
              "BuildRun ramp-up duration in seconds (time between buildrun creation and taskrun creation)."
              (config.BuildRunRampUpDurationBuckets p) buildRunLabels))
     (Some (prometheus.NewHistogramVec
              "build_buildrun_taskrun_rampup_duration_seconds"
              "BuildRun taskrun ramp-up duration in seconds (time between taskrun creation and taskrun pod creation)."
              (config.BuildRunRampUpDurationBuckets p) buildRunLabels))
     (Some (prometheus.NewHistogramVec
              "build_buildrun_taskrun_pod_rampup_duration_seconds"
              "BuildRun taskrun pod ramp-up duration in seconds (time between pod creation and last init container completion)."
              (config.BuildRunRampUpDurationBuckets p) buildRunLabels))
     (if contains enabled BuildStrategyLabel then true
      else buildStrategyLabelEnabled g)
     (if contains enabled NamespaceLabel then true else namespaceLabelEnabled g)
     (if contains enabled BuildLabel then true else buildLabelEnabled g)
     (if contains enabled BuildRunLabel then true else buildRunLabelEnabled g)
     true reg,
   out).
Proof.
  intros Hi. unfold InitPrometheus, onLabels. rewrite Hi. cbv zeta.
  destruct (contains _ BuildStrategyLabel), (contains _ NamespaceLabel),
    (contains _ BuildLabel), (contains _ BuildRunLabel);
    cbv beta iota;
    destruct (prometheus.MustRegister _ _) as [reg out]; reflexivity.
Qed.

Lemma InitPrometheus_initialized cfg g :
  initialized (fst (InitPrometheus cfg g)) = true.
Proof.
  destruct (initialized g) eqn:Hi.
  - unfold InitPrometheus. rewrite Hi. exact Hi.
  - rewrite (InitPrometheus_first cfg g Hi). cbv zeta.
    destruct (prometheus.MustRegister _ _) as [reg out]. reflexivity.
Qed.

(** [InitPrometheus] on the declared variables. *)
Lemma InitPrometheus_initial cfg reg :
  let enabled := config.EnabledLabels (config.Prometheus cfg) in
  let g := fst (InitPrometheus cfg (initial reg)) in
  initialized g = true
  /\ buildStrategyLabelEnabled g = contains enabled BuildStrategyLabel
  /\ namespaceLabelEnabled g = contains enabled NamespaceLabel
  /\ buildLabelEnabled g = contains enabled BuildLabel
  /\ buildRunLabelEnabled g = contains enabled BuildRunLabel
  /\ wellFormed g.
Proof.
  intros enabled g. subst g.
  rewrite (InitPrometheus_first cfg (initial reg) eq_refl). cbv zeta.
  fold enabled.
  destruct (prometheus.MustRegister _ _) as [r out].
  unfold onLabels.
  destruct (contains enabled BuildStrategyLabel),
           (contains enabled NamespaceLabel),
           (contains enabled BuildLabel),
           (contains enabled BuildRunLabel);
    (repeat match goal with |- _ /\ _ => split end; try reflexivity;
     constructor; simpl; try discriminate;
     intros _; eexists; (split; [reflexivity|]); (split; [reflexivity|constructor])).
Qed.

Lemma wellFormed_InitPrometheus cfg g :
  wellFormed g -> wellFormed (fst (InitPrometheus cfg g)).
Proof.
  intros Hwf. destruct (initialized g) eqn:Hi.
  - unfold InitPrometheus. rewrite Hi. exact Hwf.
  - rewrite (wf_before g Hwf Hi). apply InitPrometheus_initial.
Qed.

(** The keys of the label maps are the names the flags stand for. *)
Lemma dom_flag_insert (flag : bool) (label value : string)
      (labels : prometheus.Labels) :
  dom (if flag then <[label := value]> labels else labels)
  = (if flag then {[label]} else ∅) ∪ dom labels.
Proof. destruct flag; [apply dom_insert_L | by rewrite (left_id_L ∅ (∪))]. Qed.

Lemma list_to_set_flag (flag : bool) (label : string) :
  list_to_set (if flag then [label] else []) =@{gset string}
  (if flag then {[label]} else ∅).
Proof. destruct flag; simpl; [by rewrite (right_id_L ∅ (∪)) | reflexivity]. Qed.

Lemma createBuildLabels_dom_flags g s n b :
  dom (createBuildLabels g s n b) = list_to_set (flagBuildLabels g).
Proof.
  unfold createBuildLabels, flagBuildLabels. cbv zeta.
  rewrite !dom_flag_insert, dom_empty_L, !list_to_set_app_L, !list_to_set_flag.
  generalize (if buildStrategyLabelEnabled g
              then {[BuildStrategyLabel]} else ∅ : gset string).
  generalize (if namespaceLabelEnabled g
              then {[NamespaceLabel]} else ∅ : gset string).
  generalize (if buildLabelEnabled g then {[BuildLabel]} else ∅ : gset string).
  intros B N T. set_solver.
Qed.

Lemma createBuildRunLabels_dom_flags g s n b r :
  dom (createBuildRunLabels g s n b r) = list_to_set (flagBuildRunLabels g).
Proof.
  unfold createBuildRunLabels, flagBuildRunLabels, flagBuildLabels. cbv zeta.
  rewrite !dom_flag_insert, dom_empty_L, !list_to_set_app_L, !list_to_set_flag.
  generalize (if buildStrategyLabelEnabled g
              then {[BuildStrategyLabel]} else ∅ : gset string).
  generalize (if namespaceLabelEnabled g
              then {[NamespaceLabel]} else ∅ : gset string).
  generalize (if buildLabelEnabled g then {[BuildLabel]} else ∅ : gset string).
  generalize (if buildRunLabelEnabled g then {[BuildRunLabel]} else ∅ : gset string).
  intros R B N T. set_solver.
Qed.

(** Recording on an instrument keeps the state well formed. *)
Ltac record_keeps_wf Hwf g field :=
  let Hi := fresh "Hi" in
  let v := fresh "v" in
  let Hv := fresh "Hv" in
  destruct field as [v|] eqn:Hv; [|exact Hwf];
  unfold prometheus.WithInc, prometheus.WithObserve;
  destruct (prometheus.GetMetricWith_ok _ _); [|exact Hwf];
  try (destruct (prometheus.newHistogram_ok _ _); [|exact Hwf]);
  destruct (initialized g) eqn:Hi;
  [ destruct Hwf as [_ H1 H2 H3 H4 H5 H6 H7];
    specialize (H1 Hi); specialize (H2 Hi); specialize (H3 Hi);
    specialize (H4 Hi); specialize (H5 Hi); specialize (H6 Hi);
    specialize (H7 Hi);
    split; simpl;
    [ rewrite Hi; discriminate | intros _ .. ];
    try assumption;
    match goal with
    | H : counterWith _ field |- _ =>
      destruct H as (? & Heq & Hn & Hrec); rewrite Hv in Heq; injection Heq as <-;
      eexists; split; [reflexivity|]; split; [exact Hn|];
      apply Forall_app; split; [exact Hrec|];
      constructor; [|constructor];
      first [ exact (createBuildLabels_dom_flags _ _ _ _)
            | exact (createBuildRunLabels_dom_flags _ _ _ _ _) ]
    | H : histogramWith _ field |- _ =>
      destruct H as (? & Heq & Hn & Hrec); rewrite Hv in Heq; injection Heq as <-;
      eexists; split; [reflexivity|]; split; [exact Hn|];
      apply Forall_app; split; [exact Hrec|];
      constructor; [|constructor];
      exact (createBuildRunLabels_dom_flags _ _ _ _ _)
    end
  | rewrite (wf_before _ Hwf Hi) in Hv; discriminate Hv ].

Lemma wellFormed_call c g : wellFormed g -> wellFormed (fst (call c g)).
Proof.
  intros Hwf. destruct c; simpl.
  - by apply wellFormed_InitPrometheus.
  - unfold BuildCountInc. record_keeps_wf Hwf g (buildCount g).
  - unfold BuildRunCountInc. record_keeps_wf Hwf g (buildRunCount g).
  - unfold BuildRunEstablishObserve. record_keeps_wf Hwf g (buildRunEstablishDuration g).
  - unfold BuildRunCompletionObserve. record_keeps_wf Hwf g (buildRunCompletionDuration g).
  - unfold BuildRunRampUpDurationObserve. record_keeps_wf Hwf g (buildRunRampUpDuration g).
  - unfold TaskRunRampUpDurationObserve. record_keeps_wf Hwf g (taskRunRampUpDuration g).
  - unfold TaskRunPodRampUpDurationObserve. record_keeps_wf Hwf g (taskRunPodRampUpDuration g).
Qed.

Lemma wellFormed_run cs g : wellFormed g -> wellFormed (run cs g).
Proof.
  revert g. induction cs as [|c cs IH]; intros g Hwf; [exact Hwf|].
  apply IH, wellFormed_call, Hwf.
Qed.

Lemma reachable_wellFormed g : reachable g -> wellFormed g.
Proof. intros (reg & cs & ->). apply wellFormed_run, wellFormed_initial. Qed.

Ltac record_keeps_flags g field :=
  destruct field; [|done];
  unfold prometheus.WithInc, prometheus.WithObserve;
  destruct (prometheus.GetMetricWith_ok _ _);
  try destruct (prometheus.newHistogram_ok _ _); done.

(** Once initialized, no call changes the flags or clears [initialized]. *)
Lemma call_keeps_flags c g :
  initialized g = true ->
  initialized (fst (call c g)) = true /\ flags (fst (call c g)) = flags g.
Proof.
  intros Hi. destruct c; simpl.
  - unfold InitPrometheus. rewrite Hi. done.
  - unfold BuildCountInc. record_keeps_flags g (buildCount g).
  - unfold BuildRunCountInc. record_keeps_flags g (buildRunCount g).
  - unfold BuildRunEstablishObserve.
    record_keeps_flags g (buildRunEstablishDuration g).
  - unfold BuildRunCompletionObserve.
    record_keeps_flags g (buildRunCompletionDuration g).
  - unfold BuildRunRampUpDurationObserve.
    record_keeps_flags g (buildRunRampUpDuration g).
  - unfold TaskRunRampUpDurationObserve.
    record_keeps_flags g (taskRunRampUpDuration g).
  - unfold TaskRunPodRampUpDurationObserve.
    record_keeps_flags g (taskRunPodRampUpDuration g).
Qed.

Lemma run_keeps_flags cs g :
  initialized g = true ->
  initialized (run cs g) = true /\ flags (run cs g) = flags g.
Proof.
  revert g. induction cs as [|c cs IH]; intros g Hi; [done|].
  destruct (call_keeps_flags c g Hi) as [Hi' Hf].
  destruct (IH _ Hi') as [Hi'' Hf']. simpl. split; [done|congruence].
Qed.

Lemma label_names_distinct :
  BuildStrategyLabel <> NamespaceLabel /\ BuildStrategyLabel <> BuildLabel
  /\ BuildStrategyLabel <> BuildRunLabel /\ NamespaceLabel <> BuildLabel
  /\ NamespaceLabel <> BuildRunLabel /\ BuildLabel <> BuildRunLabel.
Proof. repeat split; discriminate. Qed.

Lemma flagBuildLabels_NoDup g : NoDup (flagBuildLabels g).
Proof.
  unfold flagBuildLabels.
  destruct (buildStrategyLabelEnabled g), (namespaceLabelEnabled g),
    (buildLabelEnabled g);
    apply (bool_decide_unpack _); vm_compute; exact I.
Qed.

Lemma flagBuildRunLabels_NoDup g : NoDup (flagBuildRunLabels g).
Proof.
  unfold flagBuildRunLabels, flagBuildLabels.
  destruct (buildStrategyLabelEnabled g), (namespaceLabelEnabled g),
    (buildLabelEnabled g), (buildRunLabelEnabled g);
    apply (bool_decide_unpack _); vm_compute; exact I.
Qed.

(** Every label the maps carry has the value the caller supplied. *)
Lemma createBuildLabels_supplied g s n b :
  createBuildLabels g s n b ⊆ suppliedBuildLabels s n b.
Proof.
  pose proof label_names_distinct as (Hsn & Hsb & Hsr & Hnb & Hnr & Hbr).
  unfold createBuildLabels, suppliedBuildLabels.
  apply map_subseteq_spec. intros k v.
  destruct (buildStrategyLabelEnabled g), (namespaceLabelEnabled g),
    (buildLabelEnabled g);
    rewrite ?lookup_insert_Some, ?lookup_empty; intuition congruence.
Qed.

Lemma createBuildRunLabels_supplied g s n b r :
  createBuildRunLabels g s n b r ⊆ suppliedBuildRunLabels s n b r.
Proof.
  pose proof label_names_distinct as (Hsn & Hsb & Hsr & Hnb & Hnr & Hbr).
  unfold createBuildRunLabels, suppliedBuildRunLabels.
  apply map_subseteq_spec. intros k v.
  destruct (buildStrategyLabelEnabled g), (namespaceLabelEnabled g),
    (buildLabelEnabled g), (buildRunLabelEnabled g);
    rewrite ?lookup_insert_Some, ?lookup_empty; intuition congruence.
Qed.

(** The label a flag stands for is among the names exactly when the flag
    is set. *)
Lemma elem_of_flag_label (flag : bool) (label x : string) (S : gset string) :
  (flag = true <-> label ∈ S) ->
  x ∈ (if flag then [label] else []) <-> x = label /\ x ∈ S.
Proof.
  intros Hflag. destruct flag.
  - rewrite list_elem_of_singleton. split.
    + intros ->. split; [reflexivity | by apply Hflag].
    + by intros [-> _].
  - split.
    + intros Hx. by apply elem_of_nil in Hx.
    + intros [-> Hin]. apply Hflag in Hin. discriminate Hin.
Qed.

Lemma elem_of_buildRunLabelNames (x : string) :
  x ∈ buildRunLabelNames
  <-> x = BuildStrategyLabel \/ x = NamespaceLabel \/ x = BuildLabel
      \/ x = BuildRunLabel.
Proof.
  unfold buildRunLabelNames. rewrite !elem_of_union, !elem_of_singleton. tauto.
Qed.

Lemma elem_of_buildLabelNames (x : string) :
  x ∈ buildLabelNames
  <-> x = BuildStrategyLabel \/ x = NamespaceLabel \/ x = BuildLabel.
Proof.
  unfold buildLabelNames. rewrite !elem_of_union, !elem_of_singleton. tauto.
Qed.

Section FlagsAndSets.

Variable g : Globals.
Variable S : gset string.
Hypothesis S_known : S ⊆ buildRunLabelNames.
Hypothesis strategy_flag : buildStrategyLabelEnabled g = true <-> BuildStrategyLabel ∈ S.
Hypothesis namespace_flag : namespaceLabelEnabled g = true <-> NamespaceLabel ∈ S.
Hypothesis build_flag : buildLabelEnabled g = true <-> BuildLabel ∈ S.
Hypothesis buildRun_flag : buildRunLabelEnabled g = true <-> BuildRunLabel ∈ S.

Lemma flagBuildLabels_set :
  list_to_set (flagBuildLabels g) = S ∩ buildLabelNames.
Proof using All.
  apply set_eq. intros x. unfold flagBuildLabels.
  rewrite elem_of_list_to_set, !elem_of_app, elem_of_intersection,
    elem_of_buildLabelNames.
  rewrite (elem_of_flag_label _ _ _ S strategy_flag),
    (elem_of_flag_label _ _ _ S namespace_flag),
    (elem_of_flag_label _ _ _ S build_flag).
  tauto.
Qed.

Lemma flagBuildRunLabels_set : list_to_set (flagBuildRunLabels g) = S.
Proof using All.
  apply set_eq. intros x. unfold flagBuildRunLabels, flagBuildLabels.
  rewrite elem_of_list_to_set, !elem_of_app.
  rewrite (elem_of_flag_label _ _ _ S strategy_flag),
    (elem_of_flag_label _ _ _ S namespace_flag),
    (elem_of_flag_label _ _ _ S build_flag),
    (elem_of_flag_label _ _ _ S buildRun_flag).
  pose proof (S_known x) as Hknown.
  rewrite elem_of_buildRunLabelNames in Hknown. tauto.
Qed.

Lemma createBuildLabels_dom s n b :
  dom (createBuildLabels g s n b) = S ∩ buildLabelNames.
Proof using All.
  rewrite createBuildLabels_dom_flags. apply flagBuildLabels_set.
Qed.

Lemma createBuildRunLabels_dom s n b r :
  dom (createBuildRunLabels g s n b r) = S.
Proof using All.
  rewrite createBuildRunLabels_dom_flags. apply flagBuildRunLabels_set.
Qed.

End FlagsAndSets.

(** The label map of a build-run recording fits the names the build-run
    instruments were created with. *)
Lemma createBuildRunLabels_fit g s n b r :
  utf8.ValidString s = true -> utf8.ValidString n = true ->
  utf8.ValidString b = true -> utf8.ValidString r = true ->
  prometheus.GetMetricWith_ok (flagBuildRunLabels g)
                              (createBuildRunLabels g s n b r) = true.
Proof.
  intros Hs Hn Hb Hr.
  unfold prometheus.GetMetricWith_ok, prometheus.validateValuesInLabels,
    flagBuildRunLabels, flagBuildLabels, createBuildRunLabels.
  destruct (buildStrategyLabelEnabled g), (namespaceLabelEnabled g),
    (buildLabelEnabled g), (buildRunLabelEnabled g);
    (apply andb_true_intro; split;
     [ apply andb_true_intro; split;
       [ vm_compute; reflexivity
       | apply bool_decide_eq_true;
         repeat (apply map_Forall_insert_2; [assumption|]);
         apply map_Forall_empty ]
     | vm_compute; reflexivity ]).
Qed.

Lemma run_cons c cs g : run (c :: cs) g = run cs (fst (call c g)).
Proof. reflexivity. Qed.

Lemma call_InitPrometheus cfg g :
  call (CallInitPrometheus cfg) g = InitPrometheus cfg g.
Proof. reflexivity. Qed.

(** The flags after the first [InitPrometheus] say which labels the
    configuration enables. *)
Lemma flags_after_init cfg reg later (S : gset string) :
  list_to_set (config.EnabledLabels (config.Prometheus cfg)) = S ->
  let g := run (CallInitPrometheus cfg :: later) (initial reg) in
  wellFormed g /\ initialized g = true
  /\ (buildStrategyLabelEnabled g = true <-> BuildStrategyLabel ∈ S)
  /\ (namespaceLabelEnabled g = true <-> NamespaceLabel ∈ S)
  /\ (buildLabelEnabled g = true <-> BuildLabel ∈ S)
  /\ (buildRunLabelEnabled g = true <-> BuildRunLabel ∈ S).
Proof.
  intros HS g.
  destruct (InitPrometheus_initial cfg reg) as (Hi & H1 & H2 & H3 & H4 & Hwf).
  destruct (run_keeps_flags later _ Hi) as [Hi' Hf].
  assert (Hin : forall l, contains (config.EnabledLabels (config.Prometheus cfg)) l
                          = true <-> l ∈ S).
  { intros l. rewrite contains_elem_of, <- HS. by rewrite elem_of_list_to_set. }
  unfold flags in Hf. injection Hf as Hf1 Hf2 Hf3 Hf4.
  subst g. rewrite run_cons, call_InitPrometheus.
  split; [by apply wellFormed_run|]. split; [exact Hi'|].
  rewrite Hf1, Hf2, Hf3, Hf4, H1, H2, H3, H4.
  repeat split; apply Hin.
Qed.


(** The scenario of the design: with the strategy and the namespace label
    enabled, one completed build run is counted once, under those two labels
    alone. *)
Example one_build_run_completed :
  let g := fst (BuildRunCountInc "buildah" "team-a" "build-1" "run-1"
                                 sample.started) in
  (prometheus.cv_incs <$> buildRunCount g) = Some [sample.labels]
  /\ ((fun v => prometheus.counter_value v sample.labels) <$> buildRunCount g)
     = Some 1%nat.
Proof. vm_compute. split; reflexivity. Qed.

(** C4.  Initialization is idempotent: whatever the two configurations and
    the state before, a second [InitPrometheus] returns without a panic and
    leaves every package variable, and the registry, as the first call left
    them. *)
Theorem InitPrometheus_twice (c1 c2 : config.Config) (g : Globals) :
  InitPrometheus c2 (fst (InitPrometheus c1 g))
  = (fst (InitPrometheus c1 g), Returned).
Proof.
  pose proof (InitPrometheus_initialized c1 g) as Hi.
  unfold InitPrometheus at 1. rewrite Hi. reflexivity.
Qed.

(** C8.  In a state the process can reach in which [InitPrometheus] has not
    run, each of the two record operations and of the five observe
    operations returns without a panic and leaves the package state as it
    was. *)
Theorem record_before_InitPrometheus_is_a_no_op (g : Globals) :
  reachable g -> initialized g = false ->
  forall (buildStrategy namespace build buildRun : string) (d : time.Duration),
    BuildCountInc buildStrategy namespace build g = (g, Returned)
    /\ BuildRunCountInc buildStrategy namespace build buildRun g = (g, Returned)
    /\ BuildRunEstablishObserve buildStrategy namespace build buildRun d g
       = (g, Returned)
    /\ BuildRunCompletionObserve buildStrategy namespace build buildRun d g
       = (g, Returned)
    /\ BuildRunRampUpDurationObserve buildStrategy namespace build buildRun d g
       = (g, Returned)
    /\ TaskRunRampUpDurationObserve buildStrategy namespace build buildRun d g
       = (g, Returned)
    /\ TaskRunPodRampUpDurationObserve buildStrategy namespace build buildRun d g
       = (g, Returned).
Proof.
  intros Hr Hi s n b r d.
  rewrite (wf_before g (reachable_wellFormed g Hr) Hi).
  repeat split.
Qed.

Lemma samples_addObservation v labels x :
  prometheus.samples (prometheus.addObservation v labels x) labels
  = prometheus.samples v labels ++ [x].
Proof.
  unfold prometheus.samples, prometheus.addObservation. simpl.
  rewrite filter_app, fmap_app, filter_cons, filter_nil. simpl.
  destruct (decide (labels = labels)); [reflexivity | congruence].
Qed.

(** None of the label names of the package is the one histograms keep for
    their buckets. *)
Lemma flagBuildRunLabels_without_le g :
  forallb (fun n => negb (String.eqb n "le")) (flagBuildRunLabels g) = true.
Proof.
  unfold flagBuildRunLabels, flagBuildLabels.
  destruct (buildStrategyLabelEnabled g), (namespaceLabelEnabled g),
    (buildLabelEnabled g), (buildRunLabelEnabled g); reflexivity.
Qed.

(** An observation with label values that are valid UTF-8 is recorded when
    the buckets of the histogram are in increasing order, and panics in the
    making of the child when they are not. *)
Lemma observe_records g s n b r x v :
  utf8.ValidString s = true -> utf8.ValidString n = true ->
  utf8.ValidString b = true -> utf8.ValidString r = true ->
  prometheus.hv_variableLabels v = flagBuildRunLabels g ->
  prometheus.WithObserve v (createBuildRunLabels g s n b r) x
  = (if prometheus.increasing (prometheus.upperBounds (prometheus.hv_Buckets v))
     then Some (prometheus.addObservation v (createBuildRunLabels g s n b r) x)
     else None)
  /\ observePanic v (createBuildRunLabels g s n b r)
     = Panicked "histogram child cannot be made: le as label name, or buckets not in increasing order".
Proof.
  intros Hs Hn Hb Hr Hv.
  unfold prometheus.WithObserve, observePanic, prometheus.newHistogram_ok.
  rewrite Hv, createBuildRunLabels_fit, flagBuildRunLabels_without_le
    by assumption.
  split; reflexivity.
Qed.

Ltac observation_settled Hw Hi :=
  let v := fresh "v" in
  let Hv := fresh "Hv" in
  let Hnames := fresh "Hnames" in
  let Hwith := fresh "Hwith" in
  let Hpanic := fresh "Hpanic" in
  destruct (Hw Hi) as (v & Hv & Hnames & _);
  rewrite Hv; unfold increasingBuckets;
  match goal with
  | |- context [prometheus.WithObserve
                  v (createBuildRunLabels ?g ?s ?n ?b ?r) ?x] =>
    destruct (observe_records g s n b r x v
                              ltac:(assumption) ltac:(assumption)
                              ltac:(assumption) ltac:(assumption) Hnames)
      as [Hwith Hpanic];
    rewrite Hwith, Hpanic
  end;
  destruct (prometheus.increasing _);
  (split; [intros ? | intros ?]); try discriminate;
  [ split; [reflexivity|];
    eexists v, _; simpl;
    split; [reflexivity|]; split; [reflexivity|]; split; [reflexivity|];
    apply samples_addObservation
  | split; [reflexivity | eexists; reflexivity] ].



(** * Properties of owner resolution and of the publication *)

Section PublisherProperties.

Context {Store : Type} `{!Client Store}.

Implicit Types (w : World Store) (st : Store) (ref : OwnerReference.t).

Lemma after_nil w : after [] w = w.
Proof. destruct w. unfold after. simpl. by rewrite app_nil_r. Qed.

Lemma after_after ops ops' w : after ops' (after ops w) = after (ops ++ ops') w.
Proof. unfold after. simpl. by rewrite app_assoc. Qed.

Lemma log_after op w : log op w = after [op] w.
Proof. reflexivity. Qed.

(** A nil reference is answered at once. *)
Lemma findFinalOwnerRef_nil fuel ns w :
  findFinalOwnerRef fuel ns None w = (Ok None, w).
Proof. destruct fuel; reflexivity. Qed.

(** One step of [findFinalOwnerRef] on a reference. *)
Lemma findFinalOwnerRef_step fuel ns ref w :
  findFinalOwnerRef (S fuel) ns (Some ref) w =
  match fetched (cluster w) ns ref with
  | inl err => (Err err, after [fetchOf ns ref] w)
  | inr obj =>
    match metav1.GetControllerOf (Unstructured.ObjectMeta obj) with
    | Some ref' =>
      findFinalOwnerRef fuel ns (Some ref') (after [fetchOf ns ref] w)
    | None => (Ok (Some ref), after [fetchOf ns ref] w)
    end
  end.
Proof.
  unfold fetched. simpl. unfold bind, clientGetUnstructured.
  destruct (GetUnstructured _ _ _ _) as [err|obj]; [reflexivity|].
  destruct (metav1.GetControllerOf _); reflexivity.
Qed.

(** The resolver only reads: it leaves the environment and the store as
    they are, and all it adds to the trace are fetches in [ns]. *)
Lemma findFinalOwnerRef_fetches fuel ns ownerRef w :
  exists ops,
    snd (findFinalOwnerRef fuel ns ownerRef w) = after ops w
    /\ Forall (fun op => isGet op = true /\ OpNamespace op = ns) ops
    /\ (length ops <= fuel)%nat.
Proof.
  revert ownerRef w. induction fuel as [|fuel IH]; intros [ref|] w;
    try (exists []; rewrite after_nil; simpl; split; [done|split; [constructor|lia]]).
  rewrite findFinalOwnerRef_step.
  assert (Hop : Forall (fun op => isGet op = true /\ OpNamespace op = ns)
                       [fetchOf ns ref]) by (repeat constructor).
  destruct (fetched _ _ _) as [err|obj].
  - exists [fetchOf ns ref]. simpl. split; [done|]. split; [done|lia].
  - destruct (metav1.GetControllerOf _) as [ref'|].
    + destruct (IH (Some ref') (after [fetchOf ns ref] w)) as (ops & Hw & Hall & Hlen).
      exists (fetchOf ns ref :: ops). rewrite Hw, after_after. simpl.
      split; [done|]. split; [|lia]. constructor; [|done]. by split.
    + exists [fetchOf ns ref]. simpl. split; [done|]. split; [done|lia].
Qed.

Lemma hops_step st ns ref n :
  hops st ns ref (S n) =
  match fetched st ns ref with
  | inr obj =>
    match metav1.GetControllerOf (Unstructured.ObjectMeta obj) with
    | Some ref' => hops st ns ref' n
    | None => None
    end
  | inl _ => None
  end.
Proof.
  simpl. unfold controllerOf, fetched.
  destruct (GetUnstructured _ _ _ _); reflexivity.
Qed.

(** The resolver runs out of fuel exactly when the chain is longer than
    the fuel. *)
Lemma findFinalOwnerRef_OutOfFuel fuel ns ref w :
  fst (findFinalOwnerRef fuel ns (Some ref) w) = OutOfFuel
  <-> is_Some (hops (cluster w) ns ref fuel).
Proof.
  revert ref w. induction fuel as [|fuel IH]; intros ref w.
  - simpl. split; eauto.
  - rewrite findFinalOwnerRef_step, hops_step.
    destruct (fetched _ _ _) as [err|obj]; simpl.
    + split; [discriminate | intros [? ?]; discriminate].
    + destruct (metav1.GetControllerOf _) as [ref'|]; simpl.
      * exact (IH ref' (after [fetchOf ns ref] w)).
      * split; [discriminate | intros [? ?]; discriminate].
Qed.

(** More fuel does not change a result that was reached. *)
Lemma findFinalOwnerRef_more_fuel fuel fuel' ns ref w :
  fst (findFinalOwnerRef fuel ns (Some ref) w) <> OutOfFuel ->
  (fuel <= fuel')%nat ->
  findFinalOwnerRef fuel' ns (Some ref) w = findFinalOwnerRef fuel ns (Some ref) w.
Proof.
  revert fuel' ref w. induction fuel as [|fuel IH]; intros fuel' ref w Hres Hle.
  - simpl in Hres. congruence.
  - destruct fuel' as [|fuel']; [lia|].
    rewrite !findFinalOwnerRef_step in *.
    destruct (fetched _ _ _) as [err|obj]; [reflexivity|].
    destruct (metav1.GetControllerOf _) as [ref'|]; [|reflexivity].
    apply IH; [exact Hres | lia].
Qed.

Lemma hops_None_later st ns ref n m :
  hops st ns ref n = None -> (n <= m)%nat -> hops st ns ref m = None.
Proof.
  revert ref m. induction n as [|n IH]; intros ref m Hn Hle; [discriminate|].
  destruct m as [|m]; [lia|]. simpl in *.
  destruct (controllerOf st ns ref); [|reflexivity].
  apply IH; [exact Hn | lia].
Qed.

Lemma hops_add st ns ref i k :
  hops st ns ref (i + k) =
  match hops st ns ref i with
  | Some ri => hops st ns ri k
  | None => None
  end.
Proof.
  revert ref. induction i as [|i IH]; intros ref; [reflexivity|].
  simpl. destruct (controllerOf st ns ref); [apply IH | reflexivity].
Qed.

(** The edge out of a reference depends on the object it names alone. *)
Lemma controllerOf_refKey st ns ref ref' :
  refKey ref = refKey ref' -> controllerOf st ns ref = controllerOf st ns ref'.
Proof.
  destruct ref, ref'. unfold refKey, controllerOf. simpl.
  intros [= -> -> ->]. reflexivity.
Qed.

Lemma hops_refKey st ns ref ref' k :
  refKey ref = refKey ref' ->
  hops st ns ref (S k) = hops st ns ref' (S k).
Proof. intros Hkey. simpl. by rewrite (controllerOf_refKey _ _ _ _ Hkey). Qed.

(** On a cycle the chain has no end. *)
Lemma cyclic_chain_is_endless st ns ref :
  cyclicFrom st ns ref -> forall n, is_Some (hops st ns ref n).
Proof.
  intros (i & j & ri & rj & Hij & Hi & Hj & Hkey) n.
  induction n as [n IH] using lt_wf_ind.
  destruct (le_lt_dec n j) as [Hle|Hgt].
  - destruct (hops st ns ref n) eqn:Hn; [eauto|].
    rewrite (hops_None_later _ _ _ _ _ Hn Hle) in Hj. discriminate.
  - assert (Hk : exists k, n = (j + S k)%nat) by (exists (n - j - 1)%nat; lia).
    destruct Hk as [k ->].
    rewrite hops_add, Hj, <- (hops_refKey _ _ _ _ _ Hkey).
    assert (Hlt : (i + S k < j + S k)%nat) by lia.
    specialize (IH _ Hlt). by rewrite hops_add, Hi in IH.
Qed.

Lemma chain_length st ns ref n :
  is_Some (hops st ns ref n) -> length (chain st ns ref (S n)) = S n.
Proof.
  revert ref. induction n as [|n IH]; intros ref Hn.
  - simpl. by destruct (controllerOf st ns ref).
  - change (chain st ns ref (S (S n)))
      with (refKey ref :: match controllerOf st ns ref with
                          | Some ref' => chain st ns ref' (S n)
                          | None => []
                          end).
    simpl in Hn. destruct (controllerOf st ns ref) as [ref'|].
    + simpl length. f_equal. by apply IH.
    + by destruct Hn.
Qed.

Lemma chain_lookup st ns ref n i key :
  chain st ns ref n !! i = Some key ->
  exists r, hops st ns ref i = Some r /\ refKey r = key.
Proof.
  revert ref i. induction n as [|n IH]; intros ref i Hi; [done|].
  simpl in Hi. destruct i as [|i].
  - injection Hi as <-. by exists ref.
  - simpl in Hi. simpl. destruct (controllerOf st ns ref) as [ref'|]; [|done].
    by apply IH.
Qed.

(** A finite graph without a cycle: the chain has an end. *)
Lemma acyclic_chain_ends st ns ref :
  finiteFrom st ns ref -> acyclicFrom st ns ref ->
  exists n, hops st ns ref n = None.
Proof.
  intros [nodes Hnodes] Hacyclic.
  destruct (hops st ns ref (length nodes)) eqn:Hlast; [|eauto].
  exfalso.
  assert (Hlen : length (chain st ns ref (S (length nodes))) = S (length nodes))
    by (apply chain_length; eauto).
  assert (Hdup : NoDup (chain st ns ref (S (length nodes)))).
  { apply NoDup_alt. intros i j key Hi Hj.
    destruct (chain_lookup _ _ _ _ _ _ Hi) as (ri & Hri & Hki).
    destruct (chain_lookup _ _ _ _ _ _ Hj) as (rj & Hrj & Hkj).
    destruct (lt_eq_lt_dec i j) as [[Hlt|Heq]|Hlt]; [|exact Heq|].
    - destruct (Hacyclic i j ri rj Hlt Hri Hrj). congruence.
    - destruct (Hacyclic j i rj ri Hlt Hrj Hri). congruence. }
  assert (Hsub : chain st ns ref (S (length nodes)) ⊆ nodes).
  { intros key Hkey. apply list_elem_of_lookup in Hkey as [i Hi].
    destruct (chain_lookup _ _ _ _ _ _ Hi) as (ri & Hri & <-).
    by apply (Hnodes i). }
  pose proof (submseteq_length _ _ (NoDup_submseteq _ _ Hdup Hsub)) as Hle.
  lia.
Qed.

(** C7.  When the controller-owner graph reachable from the reference is
    finite and acyclic, [findFinalOwnerRef] terminates: there is a chain
    length [n] such that any fuel from [n] on gives a result, the same one.
    When the graph has a cycle, no fuel gives a result: the recursion of the
    source does not come to an end. *)
Theorem findFinalOwnerRef_termination st ns ref :
  (finiteFrom st ns ref -> acyclicFrom st ns ref ->
   exists n, forall fuel w,
     cluster w = st -> (n <= fuel)%nat ->
     fst (findFinalOwnerRef fuel ns (Some ref) w) <> OutOfFuel
     /\ findFinalOwnerRef fuel ns (Some ref) w
        = findFinalOwnerRef n ns (Some ref) w)
  /\ (cyclicFrom st ns ref ->
      forall fuel w,
        cluster w = st ->
        fst (findFinalOwnerRef fuel ns (Some ref) w) = OutOfFuel).
Proof.
  split.
  - intros Hfin Hacyclic.
    destruct (acyclic_chain_ends st ns ref Hfin Hacyclic) as [n Hn].
    exists n. intros fuel w <- Hle.
    assert (Hres : fst (findFinalOwnerRef n ns (Some ref) w) <> OutOfFuel).
    { rewrite findFinalOwnerRef_OutOfFuel, Hn. by intros [? ?]. }
    rewrite (findFinalOwnerRef_more_fuel n fuel ns ref w Hres Hle). done.
  - intros Hcycle fuel w <-.
    apply findFinalOwnerRef_OutOfFuel, cyclic_chain_is_endless, Hcycle.
Qed.

(** [getPodOwnerRef] up to the walk: with POD_NAME set and the Pod
    fetched, what is left is [findFinalOwnerRef] from the Pod's controller
    reference. *)
Lemma getPodOwnerRef_fetched fuel ns w podName pod :
  environ w !! PodNameEnvVar = Some podName ->
  podName <> EmptyString ->
  GetPod (cluster w) (types.mkNamespacedName ns podName) = inr pod ->
  getPodOwnerRef fuel ns w =
  let w' := after [podFetch ns podName] w in
  match findFinalOwnerRef fuel ns
          (metav1.GetControllerOf (Pod.ObjectMeta pod)) w' with
  | (Ok (Some ref), w'') => (Ok ref, w'')
  | (Ok None, w'') => (Ok (podReference pod), w'')
  | (Err e, w'') => (Err e, w'')
  | (OutOfFuel, w'') => (OutOfFuel, w'')
  end.
Proof.
  intros Henv Hname Hpod. unfold getPodOwnerRef, bind at 1, Getenv.
  rewrite Henv. change (default EmptyString (Some podName)) with podName.
  destruct (String.eqb_spec podName EmptyString) as [->|_]; [done|].
  unfold bind at 1, clientGetPod. rewrite Hpod. cbv zeta.
  unfold bind. simpl Pod.ObjectMeta.
  rewrite log_after.
  destruct (findFinalOwnerRef _ _ _ _) as [[[ref|]|e|] w'']; reflexivity.
Qed.

(** C2.  For a Pod that carries no controller-owner reference,
    [getPodOwnerRef] returns a controller reference to the Pod itself, with
    apiVersion v1, kind Pod and the Pod's name and UID, and the only call it
    makes on the store is the fetch of the Pod. *)
Theorem pod_without_controller_is_its_own_owner fuel ns w podName pod :
  environ w !! PodNameEnvVar = Some podName ->
  podName <> EmptyString ->
  GetPod (cluster w) (types.mkNamespacedName ns podName) = inr pod ->
  metav1.GetControllerOf (Pod.ObjectMeta pod) = None ->
  getPodOwnerRef fuel ns w
  = (Ok (OwnerReference.mk "v1" "Pod" (ObjectMeta.Name (Pod.ObjectMeta pod))
                           (ObjectMeta.UID (Pod.ObjectMeta pod))
                           (Some true) (Some true)),
     after [podFetch ns podName] w).
Proof.
  intros Henv Hname Hpod Hnone.
  rewrite (getPodOwnerRef_fetched fuel ns w podName pod Henv Hname Hpod).
  rewrite Hnone. cbv zeta. rewrite findFinalOwnerRef_nil. reflexivity.
Qed.

(** C1.  On a chain Pod -> O1 -> O2 in which O2 has no controller owner,
    [getPodOwnerRef] returns the reference to the top object O2, and the
    calls it makes on the store are the fetch of the Pod and then exactly
    two fetches, of O1 and of O2. *)
Theorem three_level_chain_resolves_to_the_top fuel ns w podName pod r1 o1 r2 o2 :
  environ w !! PodNameEnvVar = Some podName ->
  podName <> EmptyString ->
  GetPod (cluster w) (types.mkNamespacedName ns podName) = inr pod ->
  metav1.GetControllerOf (Pod.ObjectMeta pod) = Some r1 ->
  fetched (cluster w) ns r1 = inr o1 ->
  metav1.GetControllerOf (Unstructured.ObjectMeta o1) = Some r2 ->
  fetched (cluster w) ns r2 = inr o2 ->
  metav1.GetControllerOf (Unstructured.ObjectMeta o2) = None ->
  (2 <= fuel)%nat ->
  getPodOwnerRef fuel ns w
  = (Ok r2, after [podFetch ns podName; fetchOf ns r1; fetchOf ns r2] w).
Proof.
  intros Henv Hname Hpod Hr1 Ho1 Hr2 Ho2 Htop Hfuel.
  rewrite (getPodOwnerRef_fetched fuel ns w podName pod Henv Hname Hpod).
  rewrite Hr1. cbv zeta.
  destruct fuel as [|[|fuel]]; [lia|lia|].
  rewrite findFinalOwnerRef_step. simpl cluster. rewrite Ho1, Hr2.
  rewrite findFinalOwnerRef_step. simpl cluster. rewrite Ho2, Htop.
  rewrite !after_after. reflexivity.
Qed.

(** C9.  Configuration errors come first: [CreateMetricsService] with no
    service ports returns its error, and [getPodOwnerRef] without POD_NAME in
    the environment returns its error, each leaving the world as it was: no
    call on the object store has been made, and none is tried again. *)
Theorem configuration_errors_come_before_any_call :
  (forall fuel cfg buildCfg w,
      CreateMetricsService fuel cfg buildCfg [] w
      = (Err (errorString
                "failed to create metrics Serice; service ports were empty"),
         w))
  /\ (forall fuel ns w,
         environ w !! PodNameEnvVar = None ->
         getPodOwnerRef fuel ns w
         = (Err (errorString
                   "required env POD_NAME not set, please configure downward API"),
            w)).
Proof.
  split; [reflexivity|].
  intros fuel ns w Henv. unfold getPodOwnerRef, bind, Getenv.
  rewrite Henv. reflexivity.
Qed.

(** C3.  Let the store's create of the descriptor fail.  With any error but
    already-exists, [createOrUpdateService] returns that error after the one
    create.  With already-exists it fetches the existing Service once; if the
    fetch fails it returns that error; otherwise it updates once, with the
    descriptor carrying the existing resource version and, when the existing
    Service is of type ClusterIP, the existing cluster IP, and it returns
    what the update answers, its error included. *)
Theorem createOrUpdateService_after_failed_create buildCfg s w st1 e :
  Create (cluster w) s = (st1, inl e) ->
  (apierrors.IsAlreadyExists e = false ->
   createOrUpdateService buildCfg s w
   = (Err e, mkWorld (environ w) st1 (trace w ++ [OpCreate s])))
  /\ (apierrors.IsAlreadyExists e = true ->
      forall e',
        GetService st1 (serviceKey s) = inl e' ->
        createOrUpdateService buildCfg s w
        = (Err e',
           mkWorld (environ w) st1
                   (trace w ++ [OpCreate s; OpGet "v1" "Service" (serviceKey s)])))
  /\ (apierrors.IsAlreadyExists e = true ->
      forall existing,
        GetService st1 (serviceKey s) = inr existing ->
        exists s',
          Service.ResourceVersion s' = Service.ResourceVersion existing
          /\ (ServiceSpec.Type_ (Service.Spec existing) = ServiceTypeClusterIP ->
              ServiceSpec.ClusterIP (Service.Spec s')
              = ServiceSpec.ClusterIP (Service.Spec existing))
          /\ (ServiceSpec.Type_ (Service.Spec existing) <> ServiceTypeClusterIP ->
              ServiceSpec.ClusterIP (Service.Spec s')
              = ServiceSpec.ClusterIP (Service.Spec s))
          /\ sameDescriptor s s'
          /\ forall st2 updated,
              Update st1 s' = (st2, updated) ->
              createOrUpdateService buildCfg s w
              = (match updated with
                 | inl e'' => Err e''
                 | inr s'' => Ok s''
                 end,
                 mkWorld (environ w) st2
                         (trace w ++ [OpCreate s;
                                      OpGet "v1" "Service" (serviceKey s);
                                      OpUpdate s']))).
Proof.
  intros Hcreate.
  assert (Hstart : forall (k : error + Service.t -> M Store Service.t),
             (created <- attempt (clientCreate s) ;; k created) w
             = k (inl e) (mkWorld (environ w) st1 (trace w ++ [OpCreate s]))).
  { intros k. unfold bind, attempt, clientCreate. by rewrite Hcreate. }
  unfold createOrUpdateService. rewrite Hstart. clear Hstart.
  split; [|split].
  - intros ->. reflexivity.
  - intros -> e' Hget. simpl negb. cbv iota.
    unfold bind, clientGetService, log, serviceKey in *. simpl.
    rewrite Hget. simpl. by rewrite <- app_assoc.
  - intros -> existing Hget. simpl negb. cbv iota.
    unfold bind at 1. unfold clientGetService, log, serviceKey in *. simpl.
    rewrite Hget. simpl.
    eexists. split; [|split; [|split; [|split]]]; cycle 4.
    + intros st2 updated Hupdate. unfold clientUpdate. simpl.
      rewrite Hupdate. rewrite <- !app_assoc. simpl.
      destruct updated; reflexivity.
    + destruct (String.eqb _ _); reflexivity.
    + intros Htype. apply String.eqb_eq in Htype. rewrite Htype. reflexivity.
    + intros Htype. apply String.eqb_neq in Htype. rewrite Htype. reflexivity.
    + unfold sameDescriptor. destruct (String.eqb _ _); repeat split.
Qed.

End PublisherProperties.

(** * The properties at work on the sample cluster

    Each property above that has premises is used once here, on the
    sample cluster or the sample registry, where its premises compute. *)

(** The controller's Pod, its ReplicaSet and its Deployment. *)
Lemma three_level_chain_on_the_sample_cluster :
  getPodOwnerRef 2 sample.ns (sample.world "controller-pod")
  = (Ok sample.toDeployment,
     after [podFetch sample.ns "controller-pod";
            fetchOf sample.ns sample.toReplicaSet;
            fetchOf sample.ns sample.toDeployment]
           (sample.world "controller-pod")).
Proof.
  apply (three_level_chain_resolves_to_the_top
           2 sample.ns (sample.world "controller-pod") "controller-pod"
           sample.pod sample.toReplicaSet sample.replicaSet
           sample.toDeployment sample.deployment).
  - reflexivity.
  - discriminate.
  - reflexivity.
  - reflexivity.
  - reflexivity.
  - reflexivity.
  - reflexivity.
  - reflexivity.
  - lia.
Defined.

(** The Pod without an owner; no fuel is needed. *)
Lemma lone_pod_on_the_sample_cluster :
  getPodOwnerRef 0 sample.ns (sample.world "lone-pod")
  = (Ok (OwnerReference.mk "v1" "Pod" "lone-pod" "uid-lone" (Some true) (Some true)),
     after [podFetch sample.ns "lone-pod"] (sample.world "lone-pod")).
Proof.
  apply (pod_without_controller_is_its_own_owner
           0 sample.ns (sample.world "lone-pod") "lone-pod" sample.lonePod).
  - reflexivity.
  - discriminate.
  - reflexivity.
  - reflexivity.
Defined.

(** The metrics Service is already published, with resource version 41 and
    cluster IP 10.0.0.7: both are on the descriptor that is updated. *)
Lemma republishing_on_the_sample_cluster :
  exists s',
    Service.ResourceVersion s' = "41"
    /\ ServiceSpec.ClusterIP (Service.Spec s') = "10.0.0.7"
    /\ sameDescriptor sample.service s'
    /\ trace (snd (createOrUpdateService sample.buildCfg sample.service
                                         (sample.world "controller-pod")))
       = [OpCreate sample.service;
          OpGet "v1" "Service" (serviceKey sample.service);
          OpUpdate s'].
Proof.
  destruct (createOrUpdateService_after_failed_create
              sample.buildCfg sample.service (sample.world "controller-pod")
              sample.objects
              (memstore.alreadyExists "shipwright-build-controller-metrics"))
    as (_ & _ & Hmerge).
  { reflexivity. }
  destruct (Hmerge eq_refl
              (Service.mk (TypeMeta.mk EmptyString EmptyString)
                          (memstore.meta sample.existingService)
                          (memstore.spec sample.existingService)))
    as (s' & Hversion & Hip & _ & Hsame & Hrun).
  { reflexivity. }
  exists s'. split; [exact Hversion|]. split; [exact (Hip eq_refl)|].
  split; [exact Hsame|].
  destruct (Update sample.objects s') as [st2 updated] eqn:Hupdate.
  rewrite (Hrun st2 updated eq_refl). reflexivity.
Defined.



(** A count and an observation on the declared variables. *)
Lemma recording_before_start_up :
  BuildCountInc "buildah" "team-a" "build-1" (initial ∅) = (initial ∅, Returned)
  /\ BuildRunEstablishObserve "buildah" "team-a" "build-1" "run-1" 5%Z (initial ∅)
     = (initial ∅, Returned).
Proof.
  destruct (record_before_InitPrometheus_is_a_no_op (initial ∅))
    with (buildStrategy := "buildah") (namespace := "team-a")
         (build := "build-1") (buildRun := "run-1") (d := 5%Z)
    as (Hcount & _ & Hobserve & _).
  - exists ∅, []. reflexivity.
  - reflexivity.
  - split; [exact Hcount | exact Hobserve].
Defined.

(** A process whose environment has no POD_NAME. *)
Lemma resolving_without_POD_NAME :
  getPodOwnerRef 5 sample.ns sample.worldWithoutPodName
  = (Err (errorString
            "required env POD_NAME not set, please configure downward API"),
     sample.worldWithoutPodName).
Proof.
  apply (proj2 configuration_errors_come_before_any_call).
  vm_compute. reflexivity.
Defined.

(** The chain from the ReplicaSet ends at the Deployment; the two rings own
    each other. *)
Lemma chains_of_the_sample_cluster :
  (exists n, forall fuel w,
      cluster w = sample.objects -> (n <= fuel)%nat ->
      fst (findFinalOwnerRef fuel sample.ns (Some sample.toReplicaSet) w)
      <> OutOfFuel
      /\ findFinalOwnerRef fuel sample.ns (Some sample.toReplicaSet) w
         = findFinalOwnerRef n sample.ns (Some sample.toReplicaSet) w)
  /\ (forall fuel w,
         cluster w = sample.objects ->
         fst (findFinalOwnerRef fuel sample.ns (Some sample.toLeft) w)
         = OutOfFuel).
Proof.
  split.
  - apply (proj1 (findFinalOwnerRef_termination
                    sample.objects sample.ns sample.toReplicaSet)).
    + exists [refKey sample.toReplicaSet; refKey sample.toDeployment].
      intros [|[|i]] r Hr; vm_compute in Hr; [| |discriminate Hr];
        injection Hr as <-; vm_compute; set_solver.
    + intros [|[|i]] [|[|j]] ri rj Hlt Hi Hj; try lia;
        vm_compute in Hi, Hj; try discriminate;
        injection Hi as <-; injection Hj as <-; discriminate.
  - apply (proj2 (findFinalOwnerRef_termination
                    sample.objects sample.ns sample.toLeft)).
    exists 0%nat, 2%nat, sample.toLeft, sample.toLeft.
    split; [lia|]. split; [reflexivity|]. split; [vm_compute; reflexivity|].
    reflexivity.
Defined.

(** * Further properties of the instrument registry *)

(** X1.  [contains] answers whether the element occurs in the slice: it is
    true exactly when some candidate of the slice equals the element, and so
    false on the empty slice. *)
Theorem contains_true_iff_In (slice : list string) (element : string) :
  contains slice element = true <-> In element slice.
Proof. rewrite contains_elem_of. apply list_elem_of_In. Qed.

Lemma instrumentNames_NoDup : NoDup instrumentNames.
Proof. apply (bool_decide_unpack _). vm_compute. exact I. Qed.

(** Registration of names none of which is taken. *)
Lemma MustRegister_fresh cs reg :
  NoDup cs -> (forall c, c ∈ cs -> c ∉ reg) ->
  prometheus.MustRegister cs reg = (list_to_set cs ∪ reg, Returned).
Proof.
  revert reg. induction cs as [|c cs IH]; intros reg Hnodup Hfresh; simpl.
  - by rewrite (left_id_L ∅ (∪)).
  - apply NoDup_cons in Hnodup as [Hc Hnodup].
    rewrite bool_decide_eq_false_2 by (apply Hfresh; left).
    rewrite IH; [|done|].
    + f_equal. set_solver.
    + intros c' Hc'. rewrite elem_of_union, elem_of_singleton.
      intros [->|Hin]; [done|]. revert Hin. apply Hfresh. by right.
Qed.

(** Registration when a name is taken. *)
Lemma MustRegister_taken cs reg c :
  c ∈ cs -> c ∈ reg ->
  exists reg',
    prometheus.MustRegister cs reg
    = (reg', Panicked "duplicate metrics collector registration attempted").
Proof.
  revert reg. induction cs as [|c' cs IH]; intros reg Hcs Hreg.
  - by apply elem_of_nil in Hcs.
  - simpl. destruct (bool_decide (c' ∈ reg)) eqn:Hc'; [eauto|].
    apply elem_of_cons in Hcs as [->|Hcs].
    + apply bool_decide_eq_false in Hc'. done.
    + apply IH; [done | set_solver].
Qed.

(** The first [InitPrometheus] in a process whose registry holds none of
    the seven instrument names returns without a panic and registers exactly
    those seven names. *)
Lemma InitPrometheus_registers_the_seven_names (cfg : config.Config) (g : Globals) :
  initialized g = false ->
  (forall name, name ∈ instrumentNames -> name ∉ Registry g) ->
  snd (InitPrometheus cfg g) = Returned
  /\ Registry (fst (InitPrometheus cfg g)) = instrumentNameSet ∪ Registry g.
Proof.
  intros Hi Hfresh. rewrite (InitPrometheus_first cfg g Hi). cbv zeta.
  rewrite (MustRegister_fresh _ _ instrumentNames_NoDup Hfresh). done.
Qed.

(** X2.  When one of the seven names is already registered, the first
    [InitPrometheus] panics in the registration; the package is initialized
    all the same: every instrument has been made and [initialized] is set, so
    no later call registers anything. *)
Theorem InitPrometheus_with_a_taken_name (cfg cfg' : config.Config) (g : Globals)
        (name : string) :
  initialized g = false -> name ∈ instrumentNames -> name ∈ Registry g ->
  let g' := fst (InitPrometheus cfg g) in
  snd (InitPrometheus cfg g)
  = Panicked "duplicate metrics collector registration attempted"
  /\ initialized g' = true
  /\ is_Some (buildCount g') /\ is_Some (buildRunCount g')
  /\ is_Some (buildRunEstablishDuration g')
  /\ is_Some (buildRunCompletionDuration g')
  /\ is_Some (buildRunRampUpDuration g')
  /\ is_Some (taskRunRampUpDuration g')
  /\ is_Some (taskRunPodRampUpDuration g')
  /\ InitPrometheus cfg' g' = (g', Returned).
Proof.
  intros Hi Hname Htaken g'. subst g'.
  assert (Hinit := InitPrometheus_initialized cfg g).
  assert (Hagain : InitPrometheus cfg' (fst (InitPrometheus cfg g))
                   = (fst (InitPrometheus cfg g), Returned)).
  { unfold InitPrometheus at 1. by rewrite Hinit. }
  revert Hinit Hagain. rewrite (InitPrometheus_first cfg g Hi). cbv zeta.
  destruct (MustRegister_taken instrumentNames (Registry g) name Hname Htaken)
    as [reg' ->].
  intros Hinit Hagain. simpl. repeat split; eauto.
Qed.

(** A record or observe call on the declared variables changes nothing. *)
Lemma call_on_initial c reg :
  (exists cfg, c = CallInitPrometheus cfg) \/ call c (initial reg) = (initial reg, Returned).
Proof. destruct c; [left; eauto | right; reflexivity ..]. Qed.

(** No call but the first [InitPrometheus] changes the registry. *)
Lemma call_keeps_Registry c g :
  initialized g = true -> Registry (fst (call c g)) = Registry g.
Proof.
  intros Hi. destruct c; simpl.
  - unfold InitPrometheus. by rewrite Hi.
  - unfold BuildCountInc. record_keeps_flags g (buildCount g).
  - unfold BuildRunCountInc. record_keeps_flags g (buildRunCount g).
  - unfold BuildRunEstablishObserve.
    record_keeps_flags g (buildRunEstablishDuration g).
  - unfold BuildRunCompletionObserve.
    record_keeps_flags g (buildRunCompletionDuration g).
  - unfold BuildRunRampUpDurationObserve.
    record_keeps_flags g (buildRunRampUpDuration g).
  - unfold TaskRunRampUpDurationObserve.
    record_keeps_flags g (taskRunRampUpDuration g).
  - unfold TaskRunPodRampUpDurationObserve.
    record_keeps_flags g (taskRunPodRampUpDuration g).
Qed.

Lemma run_keeps_Registry cs g :
  initialized g = true -> Registry (run cs g) = Registry g.
Proof.
  revert g. induction cs as [|c cs IH]; intros g Hi; [done|].
  rewrite run_cons, IH by (by apply call_keeps_flags).
  by apply call_keeps_Registry.
Qed.

(** The registry over a run that starts with none of the names taken. *)
Lemma run_from_fresh_registry cs reg :
  (forall name, name ∈ instrumentNames -> name ∉ reg) ->
  run cs (initial reg) = initial reg
  \/ (initialized (run cs (initial reg)) = true
      /\ Registry (run cs (initial reg)) = instrumentNameSet ∪ reg).
Proof.
  intros Hfresh. induction cs as [|c cs IH]; [by left|].
  rewrite run_cons.
  destruct (call_on_initial c reg) as [[cfg ->]|Hsame].
  - right. rewrite call_InitPrometheus.
    destruct (InitPrometheus_registers_the_seven_names cfg (initial reg) eq_refl Hfresh)
      as [_ Hreg].
    pose proof (InitPrometheus_initialized cfg (initial reg)) as Hi.
    split; [by apply run_keeps_flags|].
    by rewrite run_keeps_Registry.
  - rewrite Hsame. exact IH.
Qed.

(** X3.  In a process whose registry holds none of the seven names at the
    start, no call of [InitPrometheus] ever panics, whatever calls came
    before it: the instruments are registered once, by the first call, and
    the registry holds the seven names from then on. *)
Theorem InitPrometheus_never_registers_twice
        (reg : gset string) (cs : list Call) (cfg : config.Config) :
  (forall name, name ∈ instrumentNames -> name ∉ reg) ->
  let g := run cs (initial reg) in
  snd (InitPrometheus cfg g) = Returned
  /\ Registry (fst (InitPrometheus cfg g)) = instrumentNameSet ∪ reg
  /\ (initialized g = true -> Registry g = instrumentNameSet ∪ reg)
  /\ (initialized g = false -> Registry g = reg).
Proof.
  intros Hfresh g. subst g.
  destruct (run_from_fresh_registry cs reg Hfresh) as [->|[Hi Hreg]].
  - destruct (InitPrometheus_registers_the_seven_names cfg (initial reg) eq_refl Hfresh)
      as [Hout Hregistered].
    repeat split; [exact Hout | exact Hregistered | discriminate].
  - unfold InitPrometheus. rewrite Hi. simpl.
    repeat split; [exact Hreg | by intros _ | congruence].
Qed.

(** The label map of a build recording fits the names the build counter was
    made with. *)
Lemma createBuildLabels_fit g s n b :
  utf8.ValidString s = true -> utf8.ValidString n = true ->
  utf8.ValidString b = true ->
  prometheus.GetMetricWith_ok (flagBuildLabels g) (createBuildLabels g s n b) = true.
Proof.
  intros Hs Hn Hb.
  unfold prometheus.GetMetricWith_ok, prometheus.validateValuesInLabels,
    flagBuildLabels, createBuildLabels.
  destruct (buildStrategyLabelEnabled g), (namespaceLabelEnabled g),
    (buildLabelEnabled g);
    (apply andb_true_intro; split;
     [ apply andb_true_intro; split;
       [ vm_compute; reflexivity
       | apply bool_decide_eq_true;
         repeat (apply map_Forall_insert_2; [assumption|]);
         apply map_Forall_empty ]
     | vm_compute; reflexivity ]).
Qed.

(** What the two record operations do in a well-formed state, for label
    values that are valid UTF-8. *)
Lemma record_in_wellFormed g s n b r :
  wellFormed g ->
  utf8.ValidString s = true -> utf8.ValidString n = true ->
  utf8.ValidString b = true -> utf8.ValidString r = true ->
  BuildCountInc s n b g
  = (match buildCount g with
     | Some v => set_buildCount
                   (Some (prometheus.addInc v (createBuildLabels g s n b))) g
     | None => g
     end, Returned)
  /\ BuildRunCountInc s n b r g
     = (match buildRunCount g with
        | Some v => set_buildRunCount
                      (Some (prometheus.addInc v (createBuildRunLabels g s n b r))) g
        | None => g
        end, Returned).
Proof.
  intros Hwf Hs Hn Hb Hr.
  destruct (initialized g) eqn:Hi.
  - destruct Hwf as [_ W1 W2 _ _ _ _ _].
    destruct (W1 Hi) as (v1 & E1 & N1 & _), (W2 Hi) as (v2 & E2 & N2 & _).
    unfold BuildCountInc, BuildRunCountInc, prometheus.WithInc.
    rewrite E1, E2, N1, N2.
    rewrite createBuildLabels_fit, createBuildRunLabels_fit by assumption.
    repeat split.
  - rewrite (wf_before g Hwf Hi). repeat split.
Qed.

Lemma counter_value_addInc v labels other :
  prometheus.counter_value (prometheus.addInc v labels) other
  = (prometheus.counter_value v other + (if decide (labels = other) then 1 else 0))%nat.
Proof.
  unfold prometheus.counter_value, prometheus.addInc. simpl.
  rewrite filter_app, length_app, filter_cons, filter_nil.
  destruct (decide (labels = other)); reflexivity.
Qed.

(** X4.  After initialization, [BuildCountInc] and [BuildRunCountInc] called
    with label values that are valid UTF-8 return without a panic and count
    exactly once: the value of the counter under the label map of the call
    grows by one, and its value under every other label map stays as it
    was. *)
Theorem counters_count_once
        (g : Globals) (buildStrategy namespace build buildRun : string) :
  reachable g -> initialized g = true ->
  utf8.ValidString buildStrategy = true -> utf8.ValidString namespace = true ->
  utf8.ValidString build = true -> utf8.ValidString buildRun = true ->
  let counted := BuildCountInc buildStrategy namespace build g in
  let runCounted := BuildRunCountInc buildStrategy namespace build buildRun g in
  snd counted = Returned
  /\ is_Some (buildCount g)
  /\ (forall labels,
         valueOf (buildCount (fst counted)) labels
         = (fun k => if decide (createBuildLabels g buildStrategy namespace build
                                = labels)
                     then S k else k)
             <$> valueOf (buildCount g) labels)
  /\ snd runCounted = Returned
  /\ is_Some (buildRunCount g)
  /\ (forall labels,
         valueOf (buildRunCount (fst runCounted)) labels
         = (fun k => if decide (createBuildRunLabels g buildStrategy namespace
                                                     build buildRun = labels)
                     then S k else k)
             <$> valueOf (buildRunCount g) labels).
Proof.
  intros Hreach Hi Hs Hn Hb Hr counted runCounted. subst counted runCounted.
  pose proof (reachable_wellFormed g Hreach) as Hwf.
  destruct (record_in_wellFormed g _ _ _ _ Hwf Hs Hn Hb Hr) as (E1 & E2).
  destruct (wf_buildCount g Hwf Hi) as (v1 & Hv1 & _).
  destruct (wf_buildRunCount g Hwf Hi) as (v2 & Hv2 & _).
  rewrite E1, E2, Hv1, Hv2. unfold valueOf. simpl.
  repeat split; eauto; intros labels; rewrite counter_value_addInc;
    f_equal; destruct (decide _); lia.
Qed.

(** Once initialized, no call changes what an instrument was made with. *)
Ltac record_keeps_make g field :=
  cbv zeta; destruct field eqn:E;
  [unfold prometheus.WithInc, prometheus.WithObserve;
   destruct (prometheus.GetMetricWith_ok _ _);
   try destruct (prometheus.newHistogram_ok _ _)|];
  simpl; rewrite ?E; repeat split; reflexivity.

Lemma call_keeps_make c g :
  initialized g = true ->
  let g' := fst (call c g) in
  counterMake (buildCount g') = counterMake (buildCount g)
  /\ counterMake (buildRunCount g') = counterMake (buildRunCount g)
  /\ histogramMake (buildRunEstablishDuration g')
     = histogramMake (buildRunEstablishDuration g)
  /\ histogramMake (buildRunCompletionDuration g')
     = histogramMake (buildRunCompletionDuration g)
  /\ histogramMake (buildRunRampUpDuration g')
     = histogramMake (buildRunRampUpDuration g)
  /\ histogramMake (taskRunRampUpDuration g')
     = histogramMake (taskRunRampUpDuration g)
  /\ histogramMake (taskRunPodRampUpDuration g')
     = histogramMake (taskRunPodRampUpDuration g).
Proof.
  intros Hi. destruct c; simpl.
  - unfold InitPrometheus. rewrite Hi. done.
  - unfold BuildCountInc. record_keeps_make g (buildCount g).
  - unfold BuildRunCountInc. record_keeps_make g (buildRunCount g).
  - unfold BuildRunEstablishObserve.
    record_keeps_make g (buildRunEstablishDuration g).
  - unfold BuildRunCompletionObserve.
    record_keeps_make g (buildRunCompletionDuration g).
  - unfold BuildRunRampUpDurationObserve.
    record_keeps_make g (buildRunRampUpDuration g).
  - unfold TaskRunRampUpDurationObserve.
    record_keeps_make g (taskRunRampUpDuration g).
  - unfold TaskRunPodRampUpDurationObserve.
    record_keeps_make g (taskRunPodRampUpDuration g).
Qed.

Lemma run_keeps_make cs g :
  initialized g = true ->
  let g' := run cs g in
  counterMake (buildCount g') = counterMake (buildCount g)
  /\ counterMake (buildRunCount g') = counterMake (buildRunCount g)
  /\ histogramMake (buildRunEstablishDuration g')
     = histogramMake (buildRunEstablishDuration g)
  /\ histogramMake (buildRunCompletionDuration g')
     = histogramMake (buildRunCompletionDuration g)
  /\ histogramMake (buildRunRampUpDuration g')
     = histogramMake (buildRunRampUpDuration g)
  /\ histogramMake (taskRunRampUpDuration g')
     = histogramMake (taskRunRampUpDuration g)
  /\ histogramMake (taskRunPodRampUpDuration g')
     = histogramMake (taskRunPodRampUpDuration g).
Proof.
  revert g. induction cs as [|c cs IH]; intros g Hi; [done|].
  cbv zeta. rewrite run_cons.
  destruct (call_keeps_flags c g Hi) as [Hi' _].
  destruct (IH _ Hi') as (H1 & H2 & H3 & H4 & H5 & H6 & H7).
  destruct (call_keeps_make c g Hi) as (K1 & K2 & K3 & K4 & K5 & K6 & K7).
  rewrite H1, H2, H3, H4, H5, H6, H7. done.
Qed.

(** X5.  Instruments are made once: after initialization, no run of calls,
    a further [InitPrometheus] with another configuration included, changes
    the name, the help text, the buckets or the label names of any of the
    seven instruments, nor the enabled-label flags. *)
Theorem instruments_are_made_once (g : Globals) (cs : list Call) :
  initialized g = true ->
  counterMake (buildCount (run cs g)) = counterMake (buildCount g)
  /\ counterMake (buildRunCount (run cs g)) = counterMake (buildRunCount g)
  /\ histogramMake (buildRunEstablishDuration (run cs g))
     = histogramMake (buildRunEstablishDuration g)
  /\ histogramMake (buildRunCompletionDuration (run cs g))
     = histogramMake (buildRunCompletionDuration g)
  /\ histogramMake (buildRunRampUpDuration (run cs g))
     = histogramMake (buildRunRampUpDuration g)
  /\ histogramMake (taskRunRampUpDuration (run cs g))
     = histogramMake (taskRunRampUpDuration g)
  /\ histogramMake (taskRunPodRampUpDuration (run cs g))
     = histogramMake (taskRunPodRampUpDuration g)
  /\ flags (run cs g) = flags g
  /\ initialized (run cs g) = true.
Proof.
  intros Hi.
  destruct (run_keeps_make cs g Hi) as (H1 & H2 & H3 & H4 & H5 & H6 & H7).
  destruct (run_keeps_flags cs g Hi) as [Hi' Hf].
  repeat split; assumption.
Qed.

(** X6.  The [Buckets] option of the histograms comes from the
    configuration of the first [InitPrometheus] and stays, whatever calls
    follow: the establish and the completion histogram are made with their
    own boundaries, and the three ramp-up histograms are all made with
    [BuildRunRampUpDurationBuckets]. *)
Theorem histogram_buckets_come_from_the_first_configuration
        (cfg : config.Config) (reg : gset string) (later : list Call) :
  let g := run (CallInitPrometheus cfg :: later) (initial reg) in
  let p := config.Prometheus cfg in
  bucketsOf (buildRunEstablishDuration g)
  = Some (config.BuildRunEstablishDurationBuckets p)
  /\ bucketsOf (buildRunCompletionDuration g)
     = Some (config.BuildRunCompletionDurationBuckets p)
  /\ bucketsOf (buildRunRampUpDuration g)
     = Some (config.BuildRunRampUpDurationBuckets p)
  /\ bucketsOf (taskRunRampUpDuration g)
     = Some (config.BuildRunRampUpDurationBuckets p)
  /\ bucketsOf (taskRunPodRampUpDuration g)
     = Some (config.BuildRunRampUpDurationBuckets p).
Proof.
  intros g p. subst g. rewrite run_cons, call_InitPrometheus.
  pose proof (InitPrometheus_initialized cfg (initial reg)) as Hi.
  destruct (run_keeps_make later _ Hi) as (_ & _ & H3 & H4 & H5 & H6 & H7).
  assert (Hb : forall o o', histogramMake o = histogramMake o' ->
                            bucketsOf o = bucketsOf o').
  { intros [v|] [v'|] Hm; simpl in *; try done. by injection Hm as _ _ -> _. }
  rewrite (Hb _ _ H3), (Hb _ _ H4), (Hb _ _ H5), (Hb _ _ H6), (Hb _ _ H7).
  rewrite (InitPrometheus_first cfg (initial reg) eq_refl). cbv zeta.
  destruct (prometheus.MustRegister _ _) as [r out]. done.
Qed.

Lemma countsNoLess_refl o : countsNoLess o o.
Proof. intros labels k Hk. eauto. Qed.

Lemma countsNoLess_trans o1 o2 o3 :
  countsNoLess o1 o2 -> countsNoLess o2 o3 -> countsNoLess o1 o3.
Proof.
  intros H12 H23 labels k Hk.
  destruct (H12 _ _ Hk) as (k2 & Hk2 & Hle).
  destruct (H23 _ _ Hk2) as (k3 & Hk3 & Hle'). exists k3. split; [done|lia].
Qed.

Lemma samplesKept_refl o : samplesKept o o.
Proof. intros labels xs Hxs. eauto. Qed.

Lemma samplesKept_trans o1 o2 o3 :
  samplesKept o1 o2 -> samplesKept o2 o3 -> samplesKept o1 o3.
Proof.
  intros H12 H23 labels xs Hxs.
  destruct (H12 _ _ Hxs) as (xs2 & Hxs2 & Hpre).
  destruct (H23 _ _ Hxs2) as (xs3 & Hxs3 & Hpre'). exists xs3.
  split; [done|]. by etrans.
Qed.

Lemma countsNoLess_WithInc v labels v' :
  prometheus.WithInc v labels = Some v' -> countsNoLess (Some v) (Some v').
Proof.
  unfold prometheus.WithInc. destruct (prometheus.GetMetricWith_ok _ _); [|done].
  intros [= <-] other k [= <-]. eexists. split; [reflexivity|].
  rewrite counter_value_addInc. lia.
Qed.

Lemma samplesKept_WithObserve v labels x v' :
  prometheus.WithObserve v labels x = Some v' -> samplesKept (Some v) (Some v').
Proof.
  unfold prometheus.WithObserve. destruct (prometheus.GetMetricWith_ok _ _); [|done].
  destruct (prometheus.newHistogram_ok _ _); [|done].
  intros [= <-] other xs [= <-]. eexists. split; [reflexivity|].
  unfold prometheus.samples, prometheus.addObservation. simpl.
  rewrite filter_app, fmap_app. by apply prefix_app_r.
Qed.

Lemma recordingsKept_refl g : recordingsKept g g.
Proof.
  repeat split; first [apply countsNoLess_refl | apply samplesKept_refl].
Qed.

Lemma recordingsKept_trans g1 g2 g3 :
  recordingsKept g1 g2 -> recordingsKept g2 g3 -> recordingsKept g1 g3.
Proof.
  intros (A1 & A2 & A3 & A4 & A5 & A6 & A7) (B1 & B2 & B3 & B4 & B5 & B6 & B7).
  repeat split;
    first [eapply countsNoLess_trans; eassumption
          | eapply samplesKept_trans; eassumption].
Qed.

Ltac record_keeps_recordings field :=
  destruct field as [v|] eqn:E; [|apply recordingsKept_refl];
  first [destruct (prometheus.WithInc v _) as [v'|] eqn:E'
        | destruct (prometheus.WithObserve v _ _) as [v'|] eqn:E'];
  [|apply recordingsKept_refl];
  unfold recordingsKept; simpl; rewrite ?E;
  repeat split;
  first [eapply countsNoLess_WithInc; eassumption
        | eapply samplesKept_WithObserve; eassumption
        | apply countsNoLess_refl | apply samplesKept_refl].

Lemma call_keeps_recordings c g :
  wellFormed g -> recordingsKept g (fst (call c g)).
Proof.
  intros Hwf. destruct c; simpl.
  - destruct (initialized g) eqn:Hi.
    + unfold InitPrometheus. rewrite Hi. apply recordingsKept_refl.
    + pose proof (wf_before g Hwf Hi) as Hg.
      unfold recordingsKept.
      repeat split; intros labels k Hk; rewrite Hg in Hk; discriminate.
  - unfold BuildCountInc. record_keeps_recordings (buildCount g).
  - unfold BuildRunCountInc. record_keeps_recordings (buildRunCount g).
  - unfold BuildRunEstablishObserve.
    record_keeps_recordings (buildRunEstablishDuration g).
  - unfold BuildRunCompletionObserve.
    record_keeps_recordings (buildRunCompletionDuration g).
  - unfold BuildRunRampUpDurationObserve.
    record_keeps_recordings (buildRunRampUpDuration g).
  - unfold TaskRunRampUpDurationObserve.
    record_keeps_recordings (taskRunRampUpDuration g).
  - unfold TaskRunPodRampUpDurationObserve.
    record_keeps_recordings (taskRunPodRampUpDuration g).
Qed.

(** X7.  Recordings only grow: over any run of calls from a state the
    process can reach, no counter value gets lower, and the samples a
    histogram holds under a label map stay, as the first of its samples and
    in their order. *)
Theorem recordings_only_grow (g : Globals) (cs : list Call) :
  reachable g ->
  countsNoLess (buildCount g) (buildCount (run cs g))
  /\ countsNoLess (buildRunCount g) (buildRunCount (run cs g))
  /\ samplesKept (buildRunEstablishDuration g)
                 (buildRunEstablishDuration (run cs g))
  /\ samplesKept (buildRunCompletionDuration g)
                 (buildRunCompletionDuration (run cs g))
  /\ samplesKept (buildRunRampUpDuration g) (buildRunRampUpDuration (run cs g))
  /\ samplesKept (taskRunRampUpDuration g) (taskRunRampUpDuration (run cs g))
  /\ samplesKept (taskRunPodRampUpDuration g)
                 (taskRunPodRampUpDuration (run cs g)).
Proof.
  intros Hreach. pose proof (reachable_wellFormed g Hreach) as Hwf. clear Hreach.
  change (recordingsKept g (run cs g)).
  revert g Hwf. induction cs as [|c cs IH]; intros g Hwf.
  - apply recordingsKept_refl.
  - rewrite run_cons. eapply recordingsKept_trans.
    + exact (call_keeps_recordings c g Hwf).
    + apply IH, wellFormed_call, Hwf.
Qed.

(** X8.  Each record and observe function writes its own instrument and
    nothing else: the state after the call is the state before it with, at
    most, that one variable replaced. *)
Theorem each_function_writes_its_own_instrument
        (g : Globals) (buildStrategy namespace build buildRun : string)
        (d : time.Duration) :
  (let g' := fst (BuildCountInc buildStrategy namespace build g) in
   g' = set_buildCount (buildCount g') g)
  /\ (let g' := fst (BuildRunCountInc buildStrategy namespace build buildRun g) in
      g' = set_buildRunCount (buildRunCount g') g)
  /\ (let g' := fst (BuildRunEstablishObserve
                       buildStrategy namespace build buildRun d g) in
      g' = set_buildRunEstablishDuration (buildRunEstablishDuration g') g)
  /\ (let g' := fst (BuildRunCompletionObserve
                       buildStrategy namespace build buildRun d g) in
      g' = set_buildRunCompletionDuration (buildRunCompletionDuration g') g)
  /\ (let g' := fst (BuildRunRampUpDurationObserve
                       buildStrategy namespace build buildRun d g) in
      g' = set_buildRunRampUpDuration (buildRunRampUpDuration g') g)
  /\ (let g' := fst (TaskRunRampUpDurationObserve
                       buildStrategy namespace build buildRun d g) in
      g' = set_taskRunRampUpDuration (taskRunRampUpDuration g') g)
  /\ (let g' := fst (TaskRunPodRampUpDurationObserve
                       buildStrategy namespace build buildRun d g) in
      g' = set_taskRunPodRampUpDuration (taskRunPodRampUpDuration g') g).
Proof.
  unfold BuildCountInc, BuildRunCountInc, BuildRunEstablishObserve,
    BuildRunCompletionObserve, BuildRunRampUpDurationObserve,
    TaskRunRampUpDurationObserve, TaskRunPodRampUpDurationObserve.
  repeat match goal with |- _ /\ _ => split end; cbv zeta;
    match goal with
    | |- context [match ?field g with _ => _ end] =>
      destruct (field g) as [v|] eqn:E
    end;
    try match goal with
        | |- context [prometheus.WithInc ?v ?l] =>
          destruct (prometheus.WithInc v l)
        | |- context [prometheus.WithObserve ?v ?l ?x] =>
          destruct (prometheus.WithObserve v l x)
        end;
    simpl; rewrite <- ?E; destruct g; reflexivity.
Qed.

(** * Further properties of owner resolution and publication *)

Section FurtherPublisherProperties.

Context {Store : Type} `{!Client Store}.

Implicit Types (w : World Store) (st : Store) (ref : OwnerReference.t).

Lemma fetchesAlong_step st ns ref n :
  fetchesAlong st ns ref (S n) =
  fetchOf ns ref ::
  match fetched st ns ref with
  | inr obj =>
    match metav1.GetControllerOf (Unstructured.ObjectMeta obj) with
    | Some ref' => fetchesAlong st ns ref' n
    | None => []
    end
  | inl _ => []
  end.
Proof.
  simpl. unfold controllerOf, fetched.
  destruct (GetUnstructured _ _ _ _); reflexivity.
Qed.

Lemma fetchesAlong_length st ns ref n :
  is_Some (hops st ns ref n) -> length (fetchesAlong st ns ref (S n)) = S n.
Proof.
  revert ref. induction n as [|n IH]; intros ref Hn.
  - rewrite fetchesAlong_step. destruct (fetched _ _ _) as [|obj]; [done|].
    by destruct (metav1.GetControllerOf _).
  - rewrite fetchesAlong_step. rewrite hops_step in Hn.
    destruct (fetched _ _ _) as [|obj]; [by destruct Hn|].
    destruct (metav1.GetControllerOf _) as [ref'|]; [|by destruct Hn].
    simpl length. f_equal. by apply IH.
Qed.

(** The walk along a chain that ends: the top is returned when every
    object of the chain has been fetched, in the order of the chain. *)
Lemma findFinalOwnerRef_walk fuel ns ref w n r :
  hops (cluster w) ns ref n = Some r ->
  isTop (cluster w) ns r ->
  (n < fuel)%nat ->
  findFinalOwnerRef fuel ns (Some ref) w
  = (Ok (Some r), after (fetchesAlong (cluster w) ns ref (S n)) w).
Proof.
  revert fuel ref w. induction n as [|n IH];
    intros fuel ref w Hn (top & Htop & Hnone) Hlt;
    (destruct fuel as [|fuel]; [lia|]);
    rewrite findFinalOwnerRef_step, fetchesAlong_step.
  - injection Hn as ->. by rewrite Htop, Hnone.
  - rewrite hops_step in Hn. destruct (fetched _ _ ref) as [|obj]; [done|].
    destruct (metav1.GetControllerOf _) as [ref'|]; [|done].
    rewrite (IH fuel ref' (after [fetchOf ns ref] w)); [|exact Hn| |lia].
    + by rewrite after_after.
    + by exists top.
Qed.

(** What a result of the walk says of the store. *)
Lemma findFinalOwnerRef_result fuel ns ref w res w' :
  findFinalOwnerRef fuel ns (Some ref) w = (Ok res, w') ->
  exists n r,
    res = Some r /\ (n < fuel)%nat
    /\ hops (cluster w) ns ref n = Some r
    /\ isTop (cluster w) ns r
    /\ w' = after (fetchesAlong (cluster w) ns ref (S n)) w.
Proof.
  revert ref w. induction fuel as [|fuel IH]; intros ref w; [done|].
  rewrite findFinalOwnerRef_step.
  destruct (fetched (cluster w) ns ref) as [err|obj] eqn:Hobj; [done|].
  destruct (metav1.GetControllerOf (Unstructured.ObjectMeta obj))
    as [ref'|] eqn:Hctl.
  - intros Hres. destruct (IH _ _ Hres) as (n & r & -> & Hlt & Hn & Htop & ->).
    exists (S n), r. split; [done|]. split; [lia|].
    change (cluster (after [fetchOf ns ref] w)) with (cluster w) in *.
    split; [by rewrite hops_step, Hobj, Hctl|]. split; [exact Htop|].
    rewrite (fetchesAlong_step _ _ ref), Hobj, Hctl. by rewrite after_after.
  - intros [= <- <-]. exists 0%nat, ref. split; [done|]. split; [lia|].
    split; [done|]. split; [by exists obj|].
    by rewrite fetchesAlong_step, Hobj, Hctl.
Qed.


(** X10.  A chain of any length: when POD_NAME names a Pod of the store
    whose controller reference starts a chain that reaches, after [n] links,
    an object without controller owner, [getPodOwnerRef] returns the reference
    to that object, and the calls it makes are the fetch of the Pod and then
    the fetches of the [n + 1] objects of the chain, in its order. *)
Theorem chain_of_any_length_resolves_to_its_top
        fuel ns w podName pod first n top :
  environ w !! PodNameEnvVar = Some podName ->
  podName <> EmptyString ->
  GetPod (cluster w) (types.mkNamespacedName ns podName) = inr pod ->
  metav1.GetControllerOf (Pod.ObjectMeta pod) = Some first ->
  hops (cluster w) ns first n = Some top ->
  isTop (cluster w) ns top ->
  (n < fuel)%nat ->
  getPodOwnerRef fuel ns w
  = (Ok top,
     after (podFetch ns podName :: fetchesAlong (cluster w) ns first (S n)) w)
  /\ length (fetchesAlong (cluster w) ns first (S n)) = S n.
Proof.
  intros Henv Hname Hpod Hfirst Hn Htop Hlt.
  split; [|apply fetchesAlong_length; by rewrite Hn].
  rewrite (getPodOwnerRef_fetched fuel ns w podName pod Henv Hname Hpod).
  rewrite Hfirst. cbv zeta.
  rewrite (findFinalOwnerRef_walk
             fuel ns first (after [podFetch ns podName] w) n top Hn Htop Hlt).
  by rewrite after_after.
Qed.

Lemma GetControllerOf_Controller meta r :
  metav1.GetControllerOf meta = Some r ->
  OwnerReference.Controller r = Some true.
Proof.
  unfold metav1.GetControllerOf. intros Hfind.
  apply find_some in Hfind as [_ Hr].
  by destruct (OwnerReference.Controller r) as [[|]|].
Qed.

Lemma findFinalOwnerRef_Controller fuel ns ref w r w' :
  OwnerReference.Controller ref = Some true ->
  findFinalOwnerRef fuel ns (Some ref) w = (Ok (Some r), w') ->
  OwnerReference.Controller r = Some true.
Proof.
  revert ref w. induction fuel as [|fuel IH]; intros ref w Href; [done|].
  rewrite findFinalOwnerRef_step.
  destruct (fetched _ _ _) as [err|obj]; [done|].
  destruct (metav1.GetControllerOf _) as [ref'|] eqn:Hctl.
  - apply IH. by apply GetControllerOf_Controller in Hctl.
  - by intros [= <- <-].
Qed.

(** [getPodOwnerRef], whatever the environment and the store hold. *)
Lemma getPodOwnerRef_cases fuel ns w :
  let podName := default EmptyString (environ w !! PodNameEnvVar) in
  getPodOwnerRef fuel ns w =
  if String.eqb podName EmptyString then
    (Err (errorString
            "required env POD_NAME not set, please configure downward API"), w)
  else
    match GetPod (cluster w) (types.mkNamespacedName ns podName) with
    | inl e => (Err e, after [podFetch ns podName] w)
    | inr pod =>
      match findFinalOwnerRef fuel ns
              (metav1.GetControllerOf (Pod.ObjectMeta pod))
              (after [podFetch ns podName] w) with
      | (Ok (Some ref), w'') => (Ok ref, w'')
      | (Ok None, w'') => (Ok (podReference pod), w'')
      | (Err e, w'') => (Err e, w'')
      | (OutOfFuel, w'') => (OutOfFuel, w'')
      end
    end.
Proof.
  cbv zeta. unfold getPodOwnerRef, bind at 1, Getenv.
  destruct (String.eqb _ _); [reflexivity|].
  unfold bind at 1, clientGetPod. rewrite log_after.
  destruct (GetPod _ _) as [e|pod]; [reflexivity|].
  cbv zeta. unfold bind. simpl Pod.ObjectMeta.
  destruct (findFinalOwnerRef _ _ _ _) as [[[ref|]|e|] w'']; reflexivity.
Qed.

(** X11.  Whatever [getPodOwnerRef] returns is a controller reference: its
    [Controller] field is set and true, for the reference to the Pod itself
    as for the one found up the chain. *)
Theorem getPodOwnerRef_returns_a_controller_reference fuel ns w ref w' :
  getPodOwnerRef fuel ns w = (Ok ref, w') ->
  OwnerReference.Controller ref = Some true.
Proof.
  rewrite getPodOwnerRef_cases. cbv zeta.
  destruct (String.eqb _ _); [done|].
  destruct (GetPod _ _) as [e|pod]; [done|].
  destruct (metav1.GetControllerOf (Pod.ObjectMeta pod)) as [first|] eqn:Hfirst.
  - destruct (findFinalOwnerRef _ _ _ _) as [[[r|]|e|] w''] eqn:Hwalk; try done.
    + intros [= <- <-].
      apply (findFinalOwnerRef_Controller _ _ _ _ _ _
               (GetControllerOf_Controller _ _ Hfirst) Hwalk).
    + by intros [= <- <-].
  - rewrite findFinalOwnerRef_nil. by intros [= <- <-].
Qed.

(** X12.  When the fetch of the Pod fails, [getPodOwnerRef] returns the
    store's error as it is, and the fetch of the Pod is the one call it has
    made. *)
Theorem getPodOwnerRef_when_the_Pod_fetch_fails fuel ns w podName e :
  environ w !! PodNameEnvVar = Some podName ->
  podName <> EmptyString ->
  GetPod (cluster w) (types.mkNamespacedName ns podName) = inl e ->
  getPodOwnerRef fuel ns w = (Err e, after [podFetch ns podName] w).
Proof.
  intros Henv Hname Hpod. rewrite getPodOwnerRef_cases. cbv zeta.
  rewrite Henv. change (default EmptyString (Some podName)) with podName.
  destruct (String.eqb_spec podName EmptyString) as [->|_]; [done|].
  by rewrite Hpod.
Qed.

(** X13.  A POD_NAME that is set to the empty string is as good as none:
    [getPodOwnerRef] returns the error of the missing variable and makes no
    call on the store. *)
Theorem empty_POD_NAME_is_not_set fuel ns w :
  environ w !! PodNameEnvVar = Some EmptyString ->
  getPodOwnerRef fuel ns w
  = (Err (errorString
            "required env POD_NAME not set, please configure downward API"),
     w).
Proof.
  intros Henv. rewrite getPodOwnerRef_cases. cbv zeta. by rewrite Henv.
Qed.

Lemma getPodOwnerRef_reads fuel ns w :
  exists ops,
    snd (getPodOwnerRef fuel ns w) = after ops w
    /\ Forall (fun op => isGet op = true /\ OpNamespace op = ns) ops.
Proof.
  rewrite getPodOwnerRef_cases. cbv zeta.
  destruct (String.eqb _ _).
  { exists []. rewrite after_nil. by split. }
  destruct (GetPod _ _) as [err|pod].
  { eexists [_]. split; [reflexivity|]. by repeat constructor. }
  match goal with
  | |- context [findFinalOwnerRef fuel ns ?o ?w'] =>
    destruct (findFinalOwnerRef_fetches fuel ns o w') as (ops & Hw & Hall & _);
    destruct (findFinalOwnerRef fuel ns o w') as [[[ref|]|err|] w'']
  end;
    simpl in Hw; subst w''; rewrite after_after;
    (eexists; split; [reflexivity|]; constructor; [by split | exact Hall]).
Qed.

(** [getPodOwnerRef] runs out of fuel exactly on a chain longer than the
    fuel. *)
Lemma getPodOwnerRef_OutOfFuel fuel ns w :
  fst (getPodOwnerRef fuel ns w) = OutOfFuel <->
  exists podName pod first,
    environ w !! PodNameEnvVar = Some podName
    /\ podName <> EmptyString
    /\ GetPod (cluster w) (types.mkNamespacedName ns podName) = inr pod
    /\ metav1.GetControllerOf (Pod.ObjectMeta pod) = Some first
    /\ is_Some (hops (cluster w) ns first fuel).
Proof.
  split.
  - rewrite getPodOwnerRef_cases. cbv zeta.
    destruct (environ w !! PodNameEnvVar) as [podName|] eqn:Henv; [|done].
    change (default EmptyString (Some podName)) with podName.
    destruct (String.eqb_spec podName EmptyString) as [->|Hname]; [done|].
    destruct (GetPod _ _) as [e|pod] eqn:Hpod; [done|].
    destruct (metav1.GetControllerOf (Pod.ObjectMeta pod))
      as [first|] eqn:Hfirst.
    + intros Hout. exists podName, pod, first. repeat split; try assumption.
      apply (findFinalOwnerRef_OutOfFuel fuel ns first
               (after [podFetch ns podName] w)).
      by destruct (findFinalOwnerRef _ _ _ _) as [[[r|]|e|] w''].
    + by rewrite findFinalOwnerRef_nil.
  - intros (podName & pod & first & Henv & Hname & Hpod & Hfirst & Hlong).
    rewrite (getPodOwnerRef_fetched fuel ns w podName pod Henv Hname Hpod).
    rewrite Hfirst. cbv zeta.
    apply (findFinalOwnerRef_OutOfFuel fuel ns first
             (after [podFetch ns podName] w)) in Hlong.
    by destruct (findFinalOwnerRef _ _ _ _) as [[[r|]|e|] w''].
Qed.

(** The calls of [createOrUpdateService]: the create of the descriptor,
    then at most the fetch of the existing Service and the update of the
    descriptor with the server's fields. *)
Lemma createOrUpdateService_calls buildCfg s w :
  let r := createOrUpdateService buildCfg s w in
  exists s' ops,
    sameDescriptor s s'
    /\ (ops = [OpCreate s]
        \/ ops = [OpCreate s; OpGet "v1" "Service" (serviceKey s)]
        \/ ops = [OpCreate s; OpGet "v1" "Service" (serviceKey s); OpUpdate s'])
    /\ trace (snd r) = trace w ++ ops
    /\ environ (snd r) = environ w
    /\ fst r <> OutOfFuel.
Proof.
  cbv zeta. unfold createOrUpdateService, bind, attempt, clientCreate.
  assert (Hsame : sameDescriptor s s) by (repeat split).
  destruct (Create (cluster w) s) as [st1 [e|created]].
  - destruct (apierrors.IsAlreadyExists e); simpl negb; cbv iota.
    + unfold clientGetService, log. simpl.
      destruct (GetService st1 _) as [e'|existing].
      * exists s, [OpCreate s; OpGet "v1" "Service" (serviceKey s)].
        simpl. rewrite <- app_assoc. split; [done|]. split; [tauto|]. done.
      * unfold clientUpdate. simpl.
        match goal with
        | |- context [Update st1 ?s'] =>
          exists s', [OpCreate s; OpGet "v1" "Service" (serviceKey s); OpUpdate s'];
          destruct (Update st1 s') as [st2 [e''|updated]]
        end;
          simpl; rewrite <- !app_assoc;
          (split; [|split; [tauto|done]]);
          unfold sameDescriptor; destruct (String.eqb _ _); repeat split.
    + exists s, [OpCreate s]. simpl. split; [done|]. split; [tauto|]. done.
  - exists s, [OpCreate s]. simpl. split; [done|]. split; [tauto|]. done.
Qed.

(** X14.  The first publication: when the store accepts the create,
    [createOrUpdateService] returns the Service as the store answered it, and
    the create is the one call it has made: there is no fetch and no
    update. *)
Theorem createOrUpdateService_when_the_create_succeeds buildCfg s w st1 created :
  Create (cluster w) s = (st1, inr created) ->
  createOrUpdateService buildCfg s w
  = (Ok created, mkWorld (environ w) st1 (trace w ++ [OpCreate s])).
Proof.
  intros Hcreate.
  unfold createOrUpdateService, bind, attempt, clientCreate.
  by rewrite Hcreate.
Qed.

(** X15.  [createOrUpdateService] always returns, after one, two or three
    calls on the store and never more: the create of the descriptor, then the
    fetch of the Service of its name and namespace, then the update of a
    descriptor that is the passed one but for its resource version and its
    cluster IP.  No call is made a second time, and the environment is left
    as it was. *)
Theorem createOrUpdateService_makes_at_most_three_calls buildCfg s w :
  exists s' ops,
    sameDescriptor s s'
    /\ (ops = [OpCreate s]
        \/ ops = [OpCreate s; OpGet "v1" "Service" (serviceKey s)]
        \/ ops = [OpCreate s; OpGet "v1" "Service" (serviceKey s); OpUpdate s'])
    /\ trace (snd (createOrUpdateService buildCfg s w)) = trace w ++ ops
    /\ environ (snd (createOrUpdateService buildCfg s w)) = environ w
    /\ fst (createOrUpdateService buildCfg s w) <> OutOfFuel.
Proof. exact (createOrUpdateService_calls buildCfg s w). Qed.

(** [CreateMetricsService] once it has its client: the descriptor it
    publishes, and what it does with each error. *)
Lemma CreateMetricsService_with_client fuel cfg buildCfg servicePorts w :
  servicePorts <> [] ->
  NewClient cfg (cluster w) = None ->
  CreateMetricsService fuel cfg buildCfg servicePorts w =
  match getPodOwnerRef
          fuel (config.LeaderElectionNamespace (config.ManagerOptions buildCfg))
          w with
  | (Ok ownRef, w1) =>
    match createOrUpdateService
            buildCfg (metricsService buildCfg servicePorts ownRef) w1 with
    | (Ok service, w2) => (Ok service, w2)
    | (Err e, w2) =>
      (Err (wrapError "failed to create or get service for metrics: " e), w2)
    | (OutOfFuel, w2) => (OutOfFuel, w2)
    end
  | (Err e, w1) => (Err e, w1)
  | (OutOfFuel, w1) => (OutOfFuel, w1)
  end.
Proof.
  intros Hports Hclient. unfold CreateMetricsService.
  destruct servicePorts as [|port servicePorts]; [done|].
  change (length (port :: servicePorts) <? 1)%nat with false. cbv iota.
  unfold bind at 1, attempt at 1, clientNew. rewrite Hclient. cbv zeta.
  unfold bind at 1.
  destruct (getPodOwnerRef _ _ _) as [[ownRef|e|] w1]; [|reflexivity..].
  unfold bind, attempt.
  change (Service.SetOwnerReferences [ownRef] _)
    with (metricsService buildCfg (port :: servicePorts) ownRef).
  destruct (createOrUpdateService _ _ _) as [[service|e|] w2]; reflexivity.
Qed.

(** X16.  The descriptor [CreateMetricsService] publishes: with service
    ports, a client, and the owner resolved to [ownRef], the Service handed to
    the store's create is named shipwright-build-controller-metrics, lives in
    the leader-election namespace, carries the label name =
    shipwright-build-controller and selects the Pods of that label, exposes
    the passed ports, and has [ownRef] as its one owner reference; when the
    store accepts it, the Service the store answered is returned and nothing
    else is called. *)
Theorem CreateMetricsService_publishes_the_descriptor
        fuel cfg buildCfg servicePorts w ownRef w1 st created :
  servicePorts <> [] ->
  NewClient cfg (cluster w) = None ->
  getPodOwnerRef
    fuel (config.LeaderElectionNamespace (config.ManagerOptions buildCfg)) w
  = (Ok ownRef, w1) ->
  let service := metricsService buildCfg servicePorts ownRef in
  Create (cluster w1) service = (st, inr created) ->
  CreateMetricsService fuel cfg buildCfg servicePorts w
  = (Ok created, mkWorld (environ w1) st (trace w1 ++ [OpCreate service]))
  /\ Service.Name service = "shipwright-build-controller-metrics"
  /\ Service.Namespace service
     = config.LeaderElectionNamespace (config.ManagerOptions buildCfg)
  /\ ObjectMeta.Labels (Service.ObjectMeta service)
     = {[ "name" := "shipwright-build-controller" ]}
  /\ ServiceSpec.Selector (Service.Spec service)
     = {[ "name" := "shipwright-build-controller" ]}
  /\ ServiceSpec.Ports (Service.Spec service) = servicePorts
  /\ ObjectMeta.OwnerReferences (Service.ObjectMeta service) = [ownRef].
Proof.
  intros Hports Hclient Hown service Hcreate.
  split; [|repeat split].
  rewrite (CreateMetricsService_with_client _ _ _ _ _ Hports Hclient), Hown.
  fold service.
  unfold createOrUpdateService, bind, attempt, clientCreate.
  by rewrite Hcreate.
Qed.

Lemma CreateMetricsService_without_client fuel cfg buildCfg servicePorts w e :
  servicePorts <> [] ->
  NewClient cfg (cluster w) = Some e ->
  CreateMetricsService fuel cfg buildCfg servicePorts w
  = (Err (wrapError "failed to create new client: " e), w).
Proof.
  intros Hports Hclient. unfold CreateMetricsService.
  destruct servicePorts as [|port servicePorts]; [done|].
  change (length (port :: servicePorts) <? 1)%nat with false. cbv iota.
  unfold bind, attempt, clientNew. by rewrite Hclient.
Qed.


(** X18.  When the owner cannot be resolved, nothing is published:
    [CreateMetricsService] returns the error of [getPodOwnerRef] as it is,
    without a prefix, and all it has done is fetch: the store is as it was,
    and no create or update was called. *)
Theorem CreateMetricsService_publishes_nothing_without_an_owner
        fuel cfg buildCfg servicePorts w e :
  servicePorts <> [] ->
  NewClient cfg (cluster w) = None ->
  fst (getPodOwnerRef
         fuel (config.LeaderElectionNamespace (config.ManagerOptions buildCfg)) w)
  = Err e ->
  let r := CreateMetricsService fuel cfg buildCfg servicePorts w in
  fst r = Err e /\ onlyFetched w (snd r) /\ cluster (snd r) = cluster w.
Proof.
  intros Hports Hclient Hown. cbv zeta.
  rewrite (CreateMetricsService_with_client _ _ _ _ _ Hports Hclient).
  set (ns := config.LeaderElectionNamespace (config.ManagerOptions buildCfg)) in *.
  destruct (getPodOwnerRef_reads fuel ns w) as (ops & Hw1 & Hall).
  destruct (getPodOwnerRef fuel ns w) as [[ownRef|e'|] w1]; try done.
  simpl in Hown, Hw1. injection Hown as ->. subst w1. simpl.
  split; [done|]. split; [|done].
  exists ops. split; [done|].
  eapply Forall_impl; [exact Hall|]. by intros op [? _].
Qed.

(** X19.  The two errors [CreateMetricsService] wraps: when no client can
    be made it returns that error behind the prefix of the client, having
    made no call on the store; when the publication fails it returns that
    error behind the prefix of the Service.  Both are wrapped, not replaced:
    the message ends with the message of the cause, and unwrapping the error
    gives the cause. *)
Theorem CreateMetricsService_wraps_its_errors fuel cfg buildCfg servicePorts w :
  servicePorts <> [] ->
  (forall e,
      NewClient cfg (cluster w) = Some e ->
      exists wrapped,
        CreateMetricsService fuel cfg buildCfg servicePorts w = (Err wrapped, w)
        /\ Error wrapped = ("failed to create new client: " ++ Error e)%string
        /\ Unwrap wrapped = Some e)
  /\ (forall ownRef w1 e w2,
         NewClient cfg (cluster w) = None ->
         getPodOwnerRef
           fuel (config.LeaderElectionNamespace (config.ManagerOptions buildCfg)) w
         = (Ok ownRef, w1) ->
         createOrUpdateService
           buildCfg (metricsService buildCfg servicePorts ownRef) w1
         = (Err e, w2) ->
         exists wrapped,
           CreateMetricsService fuel cfg buildCfg servicePorts w
           = (Err wrapped, w2)
           /\ Error wrapped
              = ("failed to create or get service for metrics: " ++ Error e)%string
           /\ Unwrap wrapped = Some e).
Proof.
  intros Hports. split.
  - intros e Hclient.
    rewrite (CreateMetricsService_without_client _ _ _ _ _ _ Hports Hclient).
    by eexists.
  - intros ownRef w1 e w2 Hclient Hown Hpublish.
    rewrite (CreateMetricsService_with_client _ _ _ _ _ Hports Hclient).
    rewrite Hown, Hpublish. by eexists.
Qed.

(** X20.  All of [CreateMetricsService] but the walk up the owner chain
    comes to an end: it fails to return within the fuel exactly when there
    are service ports, a client, a Pod named by POD_NAME with a controller
    reference, and a chain from that reference that is longer than the
    fuel. *)
Theorem CreateMetricsService_returns_unless_the_chain_goes_on
        fuel cfg buildCfg servicePorts w :
  fst (CreateMetricsService fuel cfg buildCfg servicePorts w) = OutOfFuel
  <-> servicePorts <> []
      /\ NewClient cfg (cluster w) = None
      /\ exists podName pod first,
          environ w !! PodNameEnvVar = Some podName
          /\ podName <> EmptyString
          /\ GetPod (cluster w)
                    (types.mkNamespacedName
                       (config.LeaderElectionNamespace
                          (config.ManagerOptions buildCfg)) podName)
             = inr pod
          /\ metav1.GetControllerOf (Pod.ObjectMeta pod) = Some first
          /\ is_Some (hops (cluster w)
                           (config.LeaderElectionNamespace
                              (config.ManagerOptions buildCfg)) first fuel).
Proof.
  set (ns := config.LeaderElectionNamespace (config.ManagerOptions buildCfg)).
  rewrite <- (getPodOwnerRef_OutOfFuel fuel ns w).
  destruct servicePorts as [|port servicePorts].
  { simpl. split; [done|]. by intros [? _]. }
  assert (Hports : port :: servicePorts <> []) by done.
  destruct (NewClient cfg (cluster w)) as [e|] eqn:Hclient.
  { rewrite (CreateMetricsService_without_client _ _ _ _ _ _ Hports Hclient).
    simpl. split; [done|]. by intros (_ & ? & _). }
  rewrite (CreateMetricsService_with_client _ _ _ _ _ Hports Hclient).
  fold ns.
  destruct (getPodOwnerRef fuel ns w) as [[ownRef|e|] w1]; simpl.
  - pose proof (createOrUpdateService_calls
                  buildCfg (metricsService buildCfg (port :: servicePorts) ownRef)
                  w1) as (_ & _ & _ & _ & _ & _ & Hreturns).
    destruct (createOrUpdateService _ _ _) as [[published|e|] w2]; simpl in *;
      (split; [done|]); by intros (_ & _ & ?).
  - split; [done|]. by intros (_ & _ & ?).
  - by split.
Qed.

(** The walk to a fetch that fails: the error of the store is returned
    when the objects of the chain up to that one have been asked for. *)
Lemma findFinalOwnerRef_failed_fetch fuel ns ref w n r e :
  hops (cluster w) ns ref n = Some r ->
  fetched (cluster w) ns r = inl e ->
  (n < fuel)%nat ->
  findFinalOwnerRef fuel ns (Some ref) w
  = (Err e, after (fetchesAlong (cluster w) ns ref (S n)) w).
Proof.
  revert fuel ref w. induction n as [|n IH]; intros fuel ref w Hn Hr Hlt;
    (destruct fuel as [|fuel]; [lia|]);
    rewrite findFinalOwnerRef_step, fetchesAlong_step.
  - injection Hn as ->. by rewrite Hr.
  - rewrite hops_step in Hn. destruct (fetched _ _ ref) as [|obj]; [done|].
    destruct (metav1.GetControllerOf _) as [ref'|]; [|done].
    rewrite (IH fuel ref' (after [fetchOf ns ref] w)); [|exact Hn|exact Hr|lia].
    by rewrite after_after.
Qed.

Lemma fetchesAlong_in_namespace st ns ref n :
  Forall (fun op => isGet op = true /\ OpNamespace op = ns)
         (fetchesAlong st ns ref n).
Proof.
  revert ref. induction n as [|n IH]; intros ref; [constructor|].
  simpl. constructor; [by split|].
  destruct (controllerOf st ns ref); [apply IH | constructor].
Qed.

End FurtherPublisherProperties.

(** ** Owners outside the namespace of the Pod

    What the store answers for a key is the store's to say, so the
    following are about the package on the object store held in memory. *)

(** A namespaced object the store does not hold under the namespace asked
    with is not found, whatever it holds under other namespaces. *)
Lemma fetched_outside_the_namespace (st : memstore.store) ns r :
  memstore.namespaced r = true ->
  (forall ns', memstore.livesIn st r ns' -> ns' <> ns) ->
  fetched st ns r = inl (memstore.notFound (OwnerReference.Name r)).
Proof.
  unfold memstore.namespaced, memstore.livesIn. intros Hscope Hlives.
  apply negb_true_iff in Hscope.
  unfold fetched. simpl. unfold memstore.read, memstore.keyOf.
  rewrite Hscope. simpl.
  destruct (st !! _) as [o|] eqn:Hheld; [|reflexivity].
  destruct (Hlives ns); [|reflexivity]. rewrite Hheld. eauto.
Qed.

(** An object without a namespace is found under any namespace asked
    with. *)
Lemma fetched_without_namespace (st : memstore.store) ns r o :
  memstore.namespaced r = false ->
  st !! (OwnerReference.APIVersion r, OwnerReference.Kind r, EmptyString,
         OwnerReference.Name r) = Some o ->
  fetched st ns r
  = inr (Unstructured.mk
           (TypeMeta.mk (OwnerReference.Kind r) (OwnerReference.APIVersion r))
           (memstore.meta o)).
Proof.
  unfold memstore.namespaced. intros Hscope Hheld.
  apply negb_false_iff in Hscope.
  unfold fetched. simpl. unfold memstore.read, memstore.keyOf.
  rewrite Hscope. simpl. by rewrite Hheld.
Qed.



(** * The further properties at work on the sample cluster *)

(** Start-up in a process that has registered the name of the build run
    counter already. *)
Lemma start_up_with_a_registered_name :
  snd (InitPrometheus sample.buildCfg
                      (initial {[ "build_buildruns_completed_total" ]}))
  = Panicked "duplicate metrics collector registration attempted"
  /\ initialized (fst (InitPrometheus
                         sample.buildCfg
                         (initial {[ "build_buildruns_completed_total" ]})))
     = true.
Proof.
  destruct (InitPrometheus_with_a_taken_name
              sample.buildCfg sample.buildCfg
              (initial {[ "build_buildruns_completed_total" ]})
              "build_buildruns_completed_total")
    as (Hpanic & Hinit & _).
  - reflexivity.
  - apply (bool_decide_unpack _). vm_compute. exact I.
  - exact (proj2 (elem_of_singleton _ _) eq_refl).
  - split; [exact Hpanic | exact Hinit].
Defined.

(** A second start-up, after a count on the declared variables and a first
    start-up, in a process with an empty registry. *)
Lemma second_start_up_on_the_sample_registry :
  snd (InitPrometheus
         sample.buildCfg
         (run [CallBuildCountInc "buildah" "team-a" "build-1";
               CallInitPrometheus sample.buildCfg]
              (initial ∅)))
  = Returned.
Proof.
  destruct (InitPrometheus_never_registers_twice
              ∅ [CallBuildCountInc "buildah" "team-a" "build-1";
                 CallInitPrometheus sample.buildCfg]
              sample.buildCfg) as (Hreturned & _).
  - intros name _. apply not_elem_of_empty.
  - exact Hreturned.
Defined.

(** One build run counted on the started registry. *)
Lemma counting_on_the_sample_registry :
  snd (BuildRunCountInc "buildah" "team-a" "build-1" "run-1" sample.started)
  = Returned
  /\ is_Some (buildRunCount sample.started).
Proof.
  destruct (counters_count_once
              sample.started "buildah" "team-a" "build-1" "run-1")
    as (_ & _ & _ & Hreturned & Hsome & _).
  - exists ∅, [CallInitPrometheus sample.buildCfg]. vm_compute. reflexivity.
  - reflexivity.
  - reflexivity.
  - reflexivity.
  - reflexivity.
  - reflexivity.
  - split; [exact Hreturned | exact Hsome].
Defined.

(** A second start-up with every label enabled, and a count, on the started
    registry. *)
Lemma later_calls_on_the_sample_registry :
  flags (run [CallInitPrometheus
                (config.mkConfig
                   (config.mkPrometheusConfig
                      [] [] []
                      [BuildStrategyLabel; NamespaceLabel; BuildLabel;
                       BuildRunLabel])
                   (config.mkManagerOpts sample.ns));
              CallBuildCountInc "buildah" "team-a" "build-1"]
             sample.started)
  = flags sample.started.
Proof.
  destruct (instruments_are_made_once
              sample.started
              [CallInitPrometheus
                 (config.mkConfig
                    (config.mkPrometheusConfig
                       [] [] []
                       [BuildStrategyLabel; NamespaceLabel; BuildLabel;
                        BuildRunLabel])
                    (config.mkManagerOpts sample.ns));
               CallBuildCountInc "buildah" "team-a" "build-1"])
    as (_ & _ & _ & _ & _ & _ & _ & Hflags & _).
  - reflexivity.
  - exact Hflags.
Defined.

(** Counts and observations on the started registry. *)
Lemma recordings_on_the_sample_registry :
  countsNoLess
    (buildRunCount sample.started)
    (buildRunCount
       (run [CallBuildRunCountInc "buildah" "team-a" "build-1" "run-1";
             CallBuildRunEstablishObserve "buildah" "team-a" "build-1" "run-1" 5%Z]
            sample.started)).
Proof.
  destruct (recordings_only_grow
              sample.started
              [CallBuildRunCountInc "buildah" "team-a" "build-1" "run-1";
               CallBuildRunEstablishObserve "buildah" "team-a" "build-1" "run-1" 5%Z])
    as (_ & Hcount & _).
  - exists ∅, [CallInitPrometheus sample.buildCfg]. vm_compute. reflexivity.
  - exact Hcount.
Defined.


(** The chain of the controller's Pod, as a chain of one link. *)
Lemma chain_of_one_link_on_the_sample_cluster :
  getPodOwnerRef 2 sample.ns (sample.world "controller-pod")
  = (Ok sample.toDeployment,
     after (podFetch sample.ns "controller-pod"
            :: fetchesAlong sample.objects sample.ns sample.toReplicaSet 2)
           (sample.world "controller-pod"))
  /\ length (fetchesAlong sample.objects sample.ns sample.toReplicaSet 2) = 2%nat.
Proof.
  apply (chain_of_any_length_resolves_to_its_top
           2 sample.ns (sample.world "controller-pod") "controller-pod"
           sample.pod sample.toReplicaSet 1 sample.toDeployment).
  - reflexivity.
  - discriminate.
  - reflexivity.
  - reflexivity.
  - reflexivity.
  - exists sample.deployment. split; reflexivity.
  - lia.
Defined.

(** The owner of the controller's Pod is a controller reference. *)
Lemma owner_of_the_sample_Pod_is_a_controller_reference :
  OwnerReference.Controller sample.toDeployment = Some true.
Proof.
  apply (getPodOwnerRef_returns_a_controller_reference
           2 sample.ns (sample.world "controller-pod") sample.toDeployment
           (after [podFetch sample.ns "controller-pod";
                   fetchOf sample.ns sample.toReplicaSet;
                   fetchOf sample.ns sample.toDeployment]
                  (sample.world "controller-pod"))).
  reflexivity.
Defined.

(** POD_NAME names a Pod the store does not hold. *)
Lemma resolving_for_a_missing_Pod :
  getPodOwnerRef 3 sample.ns (sample.world "missing-pod")
  = (Err (memstore.notFound "missing-pod"),
     after [podFetch sample.ns "missing-pod"] (sample.world "missing-pod")).
Proof.
  apply (getPodOwnerRef_when_the_Pod_fetch_fails
           3 sample.ns (sample.world "missing-pod") "missing-pod").
  - reflexivity.
  - discriminate.
  - reflexivity.
Defined.

(** POD_NAME is set, to the empty string. *)
Lemma resolving_with_an_empty_POD_NAME :
  getPodOwnerRef 3 sample.ns (sample.world EmptyString)
  = (Err (errorString
            "required env POD_NAME not set, please configure downward API"),
     sample.world EmptyString).
Proof.
  apply (empty_POD_NAME_is_not_set 3 sample.ns (sample.world EmptyString)).
  reflexivity.
Defined.

(** The first publication of the metrics Service. *)
Lemma first_publication_on_the_sample_cluster :
  createOrUpdateService sample.buildCfg sample.service
                        (unpublishedWorld "controller-pod")
  = (Ok (Service.SetResourceVersion "1" sample.service),
     mkWorld (environ (unpublishedWorld "controller-pod"))
             (fst (memstore.create unpublished sample.service))
             (trace (unpublishedWorld "controller-pod")
              ++ [OpCreate sample.service])).
Proof.
  apply (createOrUpdateService_when_the_create_succeeds
           sample.buildCfg sample.service (unpublishedWorld "controller-pod")).
  reflexivity.
Defined.

(** The controller's first start: the owner is resolved and the Service is
    created. *)
Lemma first_start_on_the_sample_cluster :
  CreateMetricsService 2 sample.restCfg sample.buildCfg sample.ports
                       (unpublishedWorld "controller-pod")
  = (Ok (Service.SetResourceVersion "1" sample.service),
     mkWorld (environ (unpublishedWorld "controller-pod"))
             (fst (memstore.create unpublished sample.service))
             [podFetch sample.ns "controller-pod";
              fetchOf sample.ns sample.toReplicaSet;
              fetchOf sample.ns sample.toDeployment;
              OpCreate sample.service]).
Proof.
  destruct (CreateMetricsService_publishes_the_descriptor
              2 sample.restCfg sample.buildCfg sample.ports
              (unpublishedWorld "controller-pod") sample.toDeployment
              (after [podFetch sample.ns "controller-pod";
                      fetchOf sample.ns sample.toReplicaSet;
                      fetchOf sample.ns sample.toDeployment]
                     (unpublishedWorld "controller-pod"))
              (fst (memstore.create unpublished sample.service))
              (Service.SetResourceVersion "1" sample.service))
    as (Hrun & _).
  - discriminate.
  - reflexivity.
  - reflexivity.
  - reflexivity.
  - exact Hrun.
Defined.

(** The Pod whose owner lives in another namespace: nothing is published. *)
Lemma start_of_the_stray_Pod :
  fst (CreateMetricsService 3 sample.restCfg sample.buildCfg sample.ports
                            (sample.world "stray-pod"))
  = Err (memstore.notFound "elsewhere")
  /\ cluster (snd (CreateMetricsService 3 sample.restCfg sample.buildCfg
                                        sample.ports (sample.world "stray-pod")))
     = sample.objects.
Proof.
  destruct (CreateMetricsService_publishes_nothing_without_an_owner
              3 sample.restCfg sample.buildCfg sample.ports
              (sample.world "stray-pod") (memstore.notFound "elsewhere"))
    as (Herr & _ & Hcluster).
  - discriminate.
  - reflexivity.
  - reflexivity.
  - split; [exact Herr | exact Hcluster].
Defined.

(** A start without a host to make a client for, and a start against an API
    server that forbids the create. *)
Lemma wrapped_errors_on_the_sample_cluster :
  (exists wrapped,
      CreateMetricsService 2 restCfgWithoutHost sample.buildCfg sample.ports
                           (sample.world "controller-pod")
      = (Err wrapped, sample.world "controller-pod")
      /\ Error wrapped = "failed to create new client: no host"
      /\ Unwrap wrapped = Some (errorString "no host"))
  /\ (exists wrapped,
         fst (@CreateMetricsService
                memstore.store readonly.client
                2 sample.restCfg sample.buildCfg sample.ports
                (unpublishedWorld "controller-pod"))
         = Err wrapped
         /\ Error wrapped
            = "failed to create or get service for metrics: shipwright-build-controller-metrics is forbidden"
         /\ Unwrap wrapped
            = Some (readonly.forbidden "shipwright-build-controller-metrics")).
Proof.
  split.
  - apply (proj1 (CreateMetricsService_wraps_its_errors
                    2 restCfgWithoutHost sample.buildCfg sample.ports
                    (sample.world "controller-pod") ltac:(discriminate))
                 (errorString "no host")).
    reflexivity.
  - destruct (proj2 (@CreateMetricsService_wraps_its_errors
                       memstore.store readonly.client
                       2 sample.restCfg sample.buildCfg sample.ports
                       (unpublishedWorld "controller-pod") ltac:(discriminate))
                    sample.toDeployment
                    (after [podFetch sample.ns "controller-pod";
                            fetchOf sample.ns sample.toReplicaSet;
                            fetchOf sample.ns sample.toDeployment]
                           (unpublishedWorld "controller-pod"))
                    (readonly.forbidden "shipwright-build-controller-metrics")
                    (mkWorld (environ (unpublishedWorld "controller-pod"))
                             unpublished
                             [podFetch sample.ns "controller-pod";
                              fetchOf sample.ns sample.toReplicaSet;
                              fetchOf sample.ns sample.toDeployment;
                              OpCreate sample.service]))
      as (wrapped & Hrun & Hmessage & Hreason).
    + reflexivity.
    + reflexivity.
    + reflexivity.
    + exists wrapped. rewrite Hrun. split; [reflexivity|].
      split; [exact Hmessage | exact Hreason].
Defined.

